(** * Email classifier: storage layer, model calls and the two AI routes

    A shallow embedding of
      - shared/schema.ts        (the tables),
      - server/storage.ts       (DatabaseStorage),
      - server/openai.ts        (classifyEmail, generateWorkflowSummary),
      - server/routes.ts        (POST /api/emails/:id/classify and
                                 POST /api/workflows/:id/execute),
    followed by the properties the specification states about them.

    Conventions.  Identifiers are [varchar] columns, hence strings.
    Timestamps are integers (milliseconds).  A table is the list of its rows
    in insertion order.  Asynchronous code is written in a state-and-exception
    monad over the [World]: the database, the wall clock, the language-model
    endpoint and the log of the requests sent to it. *)

From Stdlib Require Import List String Ascii ZArith NArith Bool Lia.
From Stdlib Require Import Permutation Sorted.
Import ListNotations.
Open Scope string_scope.
Set Warnings "-register-all".

(** ** shared/schema.ts *)

(** [users]; the bookkeeping timestamps are left out.  No operation below
    writes this table; it is what the [userId] foreign keys refer to. *)
Module User.
Record t := mk {
  id : string;
  email : option string;
  firstName : option string;
  lastName : option string;
  profileImageUrl : option string;
}.
End User.

(** [emailAccounts]; the token columns and the bookkeeping timestamps play no
    role in any query below and are left out. *)
Module EmailAccount.
Record t := mk {
    id : string;
    userId : string;
    provider : string;
    email : string;
}.
End EmailAccount.

Module Email.
Record t := mk {
    id : string;
    emailAccountId : string;
    messageId : string;
    subject : string;
    sender : string;
    senderEmail : string;
    receivedAt : Z;
    bodyPreview : string;
    bodyFull : option string;
    isRead : bool;
}.
End Email.

Module Label.
Record t := mk {
    id : string;
    userId : string;
    name : string;
    color : string;
    description : option string;
}.
End Label.

(** [emailLabels].  The primary key [id] is the only uniqueness constraint of
    the table: [email_labels_email_id_idx] and [email_labels_label_id_idx]
    are plain indexes. *)
Module EmailLabel.
Record t := mk {
    id : string;
    emailId : string;
    labelId : string;
    isAuto : bool;
}.
End EmailLabel.

(** [InsertEmailLabel]: the insert schema omits [id] and [createdAt]. *)
Module InsertEmailLabel.
Record t := mk {
    emailId : string;
    labelId : string;
    isAuto : bool;
}.
End InsertEmailLabel.

(** The [filters] column is [jsonb]; the routes read its [labelIds] field,
    which may be missing. *)
Module Filters.
Record t := mk {
    labelIds : option (list string);
}.
End Filters.

Module Workflow.
Record t := mk {
    id : string;
    userId : string;
    name : string;
    description : option string;
    frequency : string;
    filters : Filters.t;
    prompt : string;
    isActive : bool;
    lastRunAt : option Z;
    nextRunAt : option Z;
}.
End Workflow.

(** [Partial<InsertWorkflow>]: every column optional; a nullable column that
    is present may itself be null. *)
Module WorkflowPatch.
Record t := mk {
    userId : option string;
    name : option string;
    description : option (option string);
    frequency : option string;
    filters : option Filters.t;
    prompt : option string;
    isActive : option bool;
    lastRunAt : option (option Z);
    nextRunAt : option (option Z);
}.
Definition empty : t := mk None None None None None None None None None.
End WorkflowPatch.

Module WorkflowExecution.
Record t := mk {
    id : string;
    workflowId : string;
    summary : string;
    emailCount : Z;
    executedAt : option Z;
}.
End WorkflowExecution.

(** [InsertWorkflowExecution]: [id] and [executedAt] are omitted. *)
Module InsertWorkflowExecution.
Record t := mk {
    workflowId : string;
    summary : string;
    emailCount : Z;
}.
End InsertWorkflowExecution.

(** [InsertEmail]: [id] and [createdAt] are omitted; [bodyFull] is nullable
    and [isRead] has a default, so both may be missing. *)
Module InsertEmail.
Record t := mk {
  emailAccountId : string;
  messageId : string;
  subject : string;
  sender : string;
  senderEmail : string;
  receivedAt : Z;
  bodyPreview : string;
  bodyFull : option string;
  isRead : option bool;
}.
End InsertEmail.

(** [Partial<InsertLabel>] *)
Module LabelPatch.
Record t := mk {
  userId : option string;
  name : option string;
  color : option string;
  description : option (option string);
}.
End LabelPatch.

(** [EmailLabel & { label: Label }] *)
Record AssignedLabel := mkAssignedLabel {
  emailLabel : EmailLabel.t;
  label : Label.t;
}.

(** [EmailWithLabels = Email & { labels: ... }] *)
Record EmailWithLabels := mkEmailWithLabels {
  emailColumns : Email.t;
  labels : list AssignedLabel;
}.

Record Database := mkDatabase {
  users : list User.t;
  emailAccounts : list EmailAccount.t;
  emails : list Email.t;
  labelsTable : list Label.t;
  emailLabels : list EmailLabel.t;
  workflows : list Workflow.t;
  workflowExecutions : list WorkflowExecution.t;
}.

(** ** The language-model endpoint *)

(** Values produced by [JSON.parse].  Of a number only whether it is zero is
    ever observed (truthiness), so integers suffice. *)
Inductive JsValue :=
| JNull
| JBool (b : bool)
| JNumber (n : Z)
| JString (s : string)
| JArray (items : list JsValue)
| JObject (fields : list (string * JsValue)).

(** [response.choices[0].message]: the text, paired with what [JSON.parse]
    makes of that text ([None] when it raises a SyntaxError). *)
Record Message := mkMessage {
  content : string;
  parsed : option JsValue;
}.

(** Outcome of [openai.chat.completions.create] followed by the access
    [response.choices[0].message.content]: either the call rejects (or the
    access raises), or there is a message whose content may be null. *)
Inductive ChatReply :=
| ChatRejected
| ChatContent (m : option Message).

Record ChatRequest := mkChatRequest {
  model : string;
  userContent : string;
  jsonObjectFormat : bool;
  max_completion_tokens : nat;
}.

(** What the endpoint answers, and how long the awaited call took. *)
Record ChatOutcome := mkChatOutcome {
  elapsed : N;
  reply : ChatReply;
}.

(** ** The world the server runs in *)

Record World := mkWorld {
  db : Database;
  clock : Z;
  openai : ChatRequest -> ChatOutcome;
  sent : list ChatRequest;
}.

(** A promise settles with a value or with a thrown error. *)
Inductive Settled (A : Type) :=
| Resolved (a : A)
| Threw (message : string).
Arguments Resolved {A} a.
Arguments Threw {A} message.

Definition Promise (A : Type) : Type := World -> Settled A * World.

Definition ret {A} (a : A) : Promise A := fun w => (Resolved a, w).

Definition throw {A} (message : string) : Promise A :=
  fun w => (Threw message, w).

Definition bind {A B} (m : Promise A) (k : A -> Promise B) : Promise B :=
  fun w =>
    match m w with
    | (Resolved a, w') => k a w'
    | (Threw e, w') => (Threw e, w')
    end.

(** [try { body } catch (error) { handler }] *)
Definition tryCatch {A} (body : Promise A) (handler : string -> Promise A)
  : Promise A :=
  fun w =>
    match body w with
    | (Resolved a, w') => (Resolved a, w')
    | (Threw e, w') => handler e w'
    end.

Declare Scope promise_scope.
Delimit Scope promise_scope with promise.
Notation "x <- m ;; k" := (bind m (fun x => k))
  (at level 61, m at next level, right associativity) : promise_scope.
Notation "m ;;; k" := (bind m (fun _ => k))
  (at level 61, right associativity) : promise_scope.
Open Scope promise_scope.

(** [for (const x of xs) { await body(x) }] *)
Fixpoint forOf {A} (xs : list A) (body : A -> Promise unit) : Promise unit :=
  match xs with
  | [] => ret tt
  | x :: rest => body x ;;; forOf rest body
  end.

(** A read-only query. *)
Definition query {A} (q : Database -> A) : Promise A :=
  fun w => (Resolved (q (db w)), w).

(** A statement that replaces the database contents. *)
Definition setDb (d : Database) : Promise unit :=
  fun w => (Resolved tt, mkWorld d (clock w) (openai w) (sent w)).

(** [new Date()] *)
Definition newDate : Promise Z := fun w => (Resolved (clock w), w).

(** [await openai.chat.completions.create(request)]: the request is logged,
    time passes, and the endpoint's answer comes back. *)
Definition chatCompletionsCreate (request : ChatRequest) : Promise ChatReply :=
  fun w =>
    let outcome := openai w request in
    (Resolved (reply outcome),
     mkWorld (db w) (clock w + Z.of_N (elapsed outcome)) (openai w)
             (sent w ++ [request])).

(** ** server/storage.ts: SQL building blocks *)

(** [ORDER BY]: a stable insertion sort; [le x y] says that [x] may come
    before [y]. *)
Fixpoint insertBy {A} (le : A -> A -> bool) (x : A) (l : list A) : list A :=
  match l with
  | [] => [x]
  | y :: rest => if le x y then x :: l else y :: insertBy le x rest
  end.

Definition orderBy {A} (le : A -> A -> bool) (l : list A) : list A :=
  fold_right (insertBy le) [] l.

(** [gen_random_uuid()], the default of every [id] column: an identifier that
    no row of the table carries yet (collisions of random UUIDs are not
    modelled). *)
Definition gen_random_uuid (taken : list string) : string :=
  string_of_list_ascii
    (repeat "u"%char (S (list_max (map String.length taken)))).

(** One row of the three-way join used by the email queries. *)
Record EmailRow := mkEmailRow {
  rowEmail : Email.t;
  rowEmailLabel : option EmailLabel.t;
  rowLabel : option Label.t;
}.

(** [.leftJoin(emailLabels, eq(emails.id, emailLabels.emailId))
     .leftJoin(labels, eq(emailLabels.labelId, labels.id))] for one email *)
Definition leftJoinLabels (d : Database) (e : Email.t) : list EmailRow :=
  match filter (fun el => EmailLabel.emailId el =? Email.id e) (emailLabels d) with
  | [] => [mkEmailRow e None None]
  | els =>
      flat_map
        (fun el =>
           match filter (fun l => Label.id l =? EmailLabel.labelId el)
                        (labelsTable d) with
           | [] => [mkEmailRow e (Some el) None]
           | ls => map (fun l => mkEmailRow e (Some el) (Some l)) ls
           end)
        els
  end.

(** [db.select({email, emailLabel, label}).from(emails)
       .innerJoin(emailAccounts, eq(emails.emailAccountId, emailAccounts.id))
       .leftJoin(...).leftJoin(...).where(cond)] *)
Definition selectEmailRows (d : Database)
    (cond : Email.t -> EmailAccount.t -> bool) : list EmailRow :=
  flat_map
    (fun e =>
       flat_map
         (fun a =>
            if (Email.emailAccountId e =? EmailAccount.id a) && cond e a
            then leftJoinLabels d e
            else [])
         (emailAccounts d))
    (emails d).

(** A JavaScript [Map] with string keys: entries in insertion order. *)
Definition JsMap (V : Type) : Type := list (string * V).

Definition mapHas {V} (k : string) (m : JsMap V) : bool :=
  existsb (fun kv => fst kv =? k) m.

Fixpoint mapSet {V} (k : string) (v : V) (m : JsMap V) : JsMap V :=
  match m with
  | [] => [(k, v)]
  | (k', v') :: rest =>
      if k' =? k then (k, v) :: rest else (k', v') :: mapSet k v rest
  end.

(** [f(m.get(k)!)] for an [f] that mutates the stored object in place *)
Definition mapModify {V} (k : string) (f : V -> V) (m : JsMap V) : JsMap V :=
  map (fun kv => if fst kv =? k then (fst kv, f (snd kv)) else kv) m.

Definition mapValues {V} (m : JsMap V) : list V := map snd m.

(** [email.labels.push({ ...row.emailLabel, label: row.label })], guarded by
    [if (row.emailLabel && row.label)] *)
Definition pushRowLabel (row : EmailRow) (e : EmailWithLabels)
  : EmailWithLabels :=
  match rowEmailLabel row, rowLabel row with
  | Some el, Some l =>
      mkEmailWithLabels (emailColumns e) (labels e ++ [mkAssignedLabel el l])
  | _, _ => e
  end.

(** One iteration of the grouping loop of [getEmailsByUserId]. *)
Definition groupRow (emailMap : JsMap EmailWithLabels) (row : EmailRow)
  : JsMap EmailWithLabels :=
  let key := Email.id (rowEmail row) in
  let emailMap1 :=
    if negb (mapHas key emailMap)
    then mapSet key (mkEmailWithLabels (rowEmail row) []) emailMap
    else emailMap in
  mapModify key (pushRowLabel row) emailMap1.

(** ** server/storage.ts: DatabaseStorage *)

Definition getEmailsByUserId (userId : string)
  : Promise (list EmailWithLabels) :=
  query (fun d =>
    let userEmails :=
      orderBy
        (fun r1 r2 =>
           (Email.receivedAt (rowEmail r2) <=? Email.receivedAt (rowEmail r1))%Z)
        (selectEmailRows d (fun _ a => EmailAccount.userId a =? userId)) in
    mapValues (fold_left groupRow userEmails [])).

Definition getEmailById (emailId userId : string)
  : Promise (option EmailWithLabels) :=
  query (fun d =>
    let emailData :=
      selectEmailRows d
        (fun e a => (Email.id e =? emailId) && (EmailAccount.userId a =? userId)) in
    match emailData with
    | [] => None
    | first :: _ =>
        Some (fold_left (fun e row => pushRowLabel row e) emailData
                        (mkEmailWithLabels (rowEmail first) []))
    end).

Definition getLabelsByUserId (userId : string) : Promise (list Label.t) :=
  query (fun d =>
    orderBy (fun l1 l2 => String.leb (Label.name l1) (Label.name l2))
            (filter (fun l => Label.userId l =? userId) (labelsTable d))).

Definition getLabelById (labelId userId : string) : Promise (option Label.t) :=
  query (fun d =>
    hd_error
      (filter (fun l => (Label.id l =? labelId) && (Label.userId l =? userId))
              (labelsTable d))).

(** [db.insert(emailLabels).values(data).onConflictDoNothing()]: the row gets
    a generated [id]; it is skipped when it collides with a unique key of
    the table, and the primary key is the only one.  The foreign keys to
    [emails] and [labels] are enforced. *)
Definition insertEmailLabelOnConflictDoNothing (data : InsertEmailLabel.t)
  : Promise unit :=
  fun w =>
    let d := db w in
    let row :=
      EmailLabel.mk (gen_random_uuid (map EmailLabel.id (emailLabels d)))
                    (InsertEmailLabel.emailId data)
                    (InsertEmailLabel.labelId data)
                    (InsertEmailLabel.isAuto data) in
    if negb (existsb (fun e => Email.id e =? EmailLabel.emailId row) (emails d))
       || negb (existsb (fun l => Label.id l =? EmailLabel.labelId row)
                        (labelsTable d))
    then (Threw "violates foreign key constraint", w)
    else if existsb (fun r => EmailLabel.id r =? EmailLabel.id row) (emailLabels d)
    then (Resolved tt, w)
    else
      setDb (mkDatabase (users d) (emailAccounts d) (emails d) (labelsTable d)
                        (emailLabels d ++ [row]) (workflows d)
                        (workflowExecutions d)) w.

Definition addLabelToEmail (data : InsertEmailLabel.t) (userId : string)
  : Promise unit :=
  email <- getEmailById (InsertEmailLabel.emailId data) userId ;;
  label <- getLabelById (InsertEmailLabel.labelId data) userId ;;
  match email, label with
  | Some _, Some _ => insertEmailLabelOnConflictDoNothing data
  | _, _ => throw "Email or label not found"
  end.

Definition getWorkflowById (workflowId userId : string)
  : Promise (option Workflow.t) :=
  query (fun d =>
    hd_error
      (filter (fun wf => (Workflow.id wf =? workflowId)
                         && (Workflow.userId wf =? userId))
              (workflows d))).

(** [.set(data)] on one row *)
Definition applyPatch (data : WorkflowPatch.t) (wf : Workflow.t) : Workflow.t :=
  let pick {A} (o : option A) (old : A) : A :=
    match o with Some v => v | None => old end in
  Workflow.mk
    (Workflow.id wf)
    (pick (WorkflowPatch.userId data) (Workflow.userId wf))
    (pick (WorkflowPatch.name data) (Workflow.name wf))
    (pick (WorkflowPatch.description data) (Workflow.description wf))
    (pick (WorkflowPatch.frequency data) (Workflow.frequency wf))
    (pick (WorkflowPatch.filters data) (Workflow.filters wf))
    (pick (WorkflowPatch.prompt data) (Workflow.prompt wf))
    (pick (WorkflowPatch.isActive data) (Workflow.isActive wf))
    (pick (WorkflowPatch.lastRunAt data) (Workflow.lastRunAt wf))
    (pick (WorkflowPatch.nextRunAt data) (Workflow.nextRunAt wf)).

(** drizzle's [.set(data)] throws when [data] carries no value at all. *)
Definition noValuesToSet (data : WorkflowPatch.t) : bool :=
  match data with
  | WorkflowPatch.mk None None None None None None None None None => true
  | _ => false
  end.

(** The [userId] columns reference [users.id].  An update that gives rows a
    new owner is refused when that owner is no stored user; [touched] says
    whether the statement updates any row, and [owner] is the owner those
    rows have (the key check is skipped where the column keeps its value). *)
Definition violatesUserKey (d : Database) (newOwner : option string)
    (owner : string) (touched : bool) : bool :=
  match newOwner with
  | Some u =>
      touched && negb (u =? owner)
      && negb (existsb (fun x => User.id x =? u) (users d))
  | None => false
  end.

Definition updateWorkflow (workflowId userId : string) (data : WorkflowPatch.t)
  : Promise (option Workflow.t) :=
  fun w =>
    let d := db w in
    let hit wf :=
      (Workflow.id wf =? workflowId) && (Workflow.userId wf =? userId) in
    if noValuesToSet data then (Threw "No values to set", w)
    else if violatesUserKey d (WorkflowPatch.userId data) userId
              (existsb hit (workflows d))
    then (Threw "violates foreign key constraint", w)
    else
      let returning := map (applyPatch data) (filter hit (workflows d)) in
      let updated :=
        map (fun wf => if hit wf then applyPatch data wf else wf)
            (workflows d) in
      (Resolved (hd_error returning),
       mkWorld (mkDatabase (users d) (emailAccounts d) (emails d)
                           (labelsTable d) (emailLabels d) updated
                           (workflowExecutions d))
               (clock w) (openai w) (sent w)).

(** [db.insert(workflowExecutions).values(execution).returning()]: [id] and
    [executedAt] take their defaults ([gen_random_uuid()], [now()]); the
    foreign key to [workflows] and the primary key are enforced. *)
Definition createWorkflowExecution (execution : InsertWorkflowExecution.t)
  : Promise WorkflowExecution.t :=
  fun w =>
    let d := db w in
    let newExecution :=
      WorkflowExecution.mk
        (gen_random_uuid (map WorkflowExecution.id (workflowExecutions d)))
        (InsertWorkflowExecution.workflowId execution)
        (InsertWorkflowExecution.summary execution)
        (InsertWorkflowExecution.emailCount execution)
        (Some (clock w)) in
    if negb (existsb
               (fun wf => Workflow.id wf =? WorkflowExecution.workflowId newExecution)
               (workflows d))
    then (Threw "violates foreign key constraint", w)
    else if existsb
              (fun r => WorkflowExecution.id r =? WorkflowExecution.id newExecution)
              (workflowExecutions d)
    then (Threw "duplicate key value violates unique constraint", w)
    else
      (Resolved newExecution,
       mkWorld (mkDatabase (users d) (emailAccounts d) (emails d) (labelsTable d)
                           (emailLabels d) (workflows d)
                           (workflowExecutions d ++ [newExecution]))
               (clock w) (openai w) (sent w)).

(** ** JavaScript values as server/openai.ts uses them *)

Definition nl : string := String (ascii_of_nat 10) EmptyString.
Definition dq : string := String (ascii_of_nat 34) EmptyString.

(** The ASCII case fold: the letters A-Z go to a-z, every other byte is
    kept.  It is what "up to case" means on ASCII text. *)
Definition foldAsciiLetter (c : ascii) : ascii :=
  let n := nat_of_ascii c in
  if (65 <=? n)%nat && (n <=? 90)%nat then ascii_of_nat (n + 32) else c.

Fixpoint asciiFold (s : string) : string :=
  match s with
  | EmptyString => EmptyString
  | String c rest => String (foldAsciiLetter c) (asciiFold rest)
  end.

(** ASCII text: every byte is below 128. *)
Fixpoint isAsciiText (s : string) : bool :=
  match s with
  | EmptyString => true
  | String c rest => (nat_of_ascii c <? 128)%nat && isAsciiText rest
  end.

(** What is known of a lower-casing function [lower] that stands for
    [String.prototype.toLowerCase]: on ASCII text it is the ASCII fold. *)
Definition AgreesOnAscii (lower : string -> string) : Prop :=
  forall s, isAsciiText s = true -> lower s = asciiFold s.

(** From here on the runtime's [String.prototype.toLowerCase] is a
    parameter: text is held as bytes, and outside ASCII nothing is assumed
    about how the runtime folds it. *)
Section Runtime.

Variable toLowerCase : string -> string.

(** Lift a settled value into a promise. *)
Definition settle {A} (r : Settled A) : Promise A := fun w => (r, w).

Definition bindS {A B} (r : Settled A) (k : A -> Settled B) : Settled B :=
  match r with
  | Resolved a => k a
  | Threw e => Threw e
  end.

(** [JSON.parse(content || "{}")] on the content of a reply: a null or empty
    content is replaced by the text of the empty object. *)
Definition parseContentOrEmptyObject (m : option Message) : Settled JsValue :=
  match m with
  | None => Resolved (JObject [])
  | Some msg =>
      if content msg =? EmptyString then Resolved (JObject [])
      else match parsed msg with
           | Some v => Resolved v
           | None => Threw "SyntaxError"
           end
  end.

(** [value.key]; [None] is [undefined].  Reading a property of [null]
    raises; primitives and arrays have no such own property. *)
Definition getProperty (value : JsValue) (key : string)
  : Settled (option JsValue) :=
  match value with
  | JNull => Threw "TypeError: cannot read properties of null"
  | JObject fields =>
      Resolved (option_map snd (find (fun kv => fst kv =? key) fields))
  | _ => Resolved None
  end.

Definition truthy (v : option JsValue) : bool :=
  match v with
  | None => false
  | Some JNull => false
  | Some (JBool b) => b
  | Some (JNumber n) => negb (n =? 0)%Z
  | Some (JString s) => negb (s =? EmptyString)
  | Some (JArray _) => true
  | Some (JObject _) => true
  end.

(** [v || []] *)
Definition orEmptyArray (v : option JsValue) : JsValue :=
  match v with
  | Some x => if truthy v then x else JArray []
  | None => JArray []
  end.

(** [name.toLowerCase() === label.name.toLowerCase()] for a [name] taken
    from the parsed reply: anything but a string has no [toLowerCase]. *)
Definition sameNameIgnoringCase (labelName : string) (name : JsValue)
  : Settled bool :=
  match name with
  | JString s => Resolved (toLowerCase s =? toLowerCase labelName)
  | _ => Threw "TypeError: name.toLowerCase is not a function"
  end.

(** [Array.prototype.some] with a callback that may throw: stops at the
    first element accepted. *)
Fixpoint someS {A} (cb : A -> Settled bool) (items : list A) : Settled bool :=
  match items with
  | [] => Resolved false
  | x :: rest =>
      bindS (cb x) (fun b => if b then Resolved true else someS cb rest)
  end.

(** [Array.prototype.filter] with a callback that may throw. *)
Fixpoint filterS {A} (cb : A -> Settled bool) (items : list A)
  : Settled (list A) :=
  match items with
  | [] => Resolved []
  | x :: rest =>
      bindS (cb x) (fun b =>
      bindS (filterS cb rest) (fun kept =>
      Resolved (if b then x :: kept else kept)))
  end.

(** [suggestedLabels.some(cb)]: only an array has [some]. *)
Definition suggestedSome (suggestedLabels : JsValue) (cb : JsValue -> Settled bool)
  : Settled bool :=
  match suggestedLabels with
  | JArray items => someS cb items
  | _ => Threw "TypeError: suggestedLabels.some is not a function"
  end.

(** ** server/openai.ts *)

Definition classificationPrompt (emailSubject emailBody : string)
    (availableLabels : list Label.t) : string :=
  let labelNames := String.concat ", " (map Label.name availableLabels) in
  "You are an email classification assistant. Classify the following email into one or more of these categories: "
  ++ labelNames ++ nl ++ nl
  ++ "Email Subject: " ++ emailSubject ++ nl
  ++ "Email Body: " ++ emailBody ++ nl ++ nl
  ++ "Return only a JSON object with a " ++ dq ++ "labels" ++ dq
  ++ " array containing the matching category names from the provided list. Only use categories from the list provided. If none match, return an empty array."
  ++ nl ++ nl
  ++ "Example response format: { " ++ dq ++ "labels" ++ dq ++ ": ["
  ++ dq ++ "Work" ++ dq ++ ", " ++ dq ++ "Important" ++ dq ++ "] }".

Definition classificationRequest (emailSubject emailBody : string)
    (availableLabels : list Label.t) : ChatRequest :=
  mkChatRequest "gpt-5"
    (classificationPrompt emailSubject emailBody availableLabels) true 500.

(** Lines 34-44: from the reply to the identifiers returned. *)
Definition matchSuggestedLabels (reply : ChatReply)
    (availableLabels : list Label.t) : Settled (list string) :=
  match reply with
  | ChatRejected => Threw "OpenAI request failed"
  | ChatContent m =>
      bindS (parseContentOrEmptyObject m) (fun result =>
      bindS (getProperty result "labels") (fun labelsField =>
      let suggestedLabels := orEmptyArray labelsField in
      bindS (filterS
               (fun label =>
                  suggestedSome suggestedLabels
                    (sameNameIgnoringCase (Label.name label)))
               availableLabels) (fun matching =>
      Resolved (map Label.id matching))))
  end.

(** [availableLabels] has type [{ id: string; name: string }[]]; the route
    passes the user's [Label] rows. *)
Definition classifyEmail (emailSubject emailBody : string)
    (availableLabels : list Label.t) : Promise (list string) :=
  if (List.length availableLabels =? 0)%nat then ret []
  else
    tryCatch
      (response <- chatCompletionsCreate
                     (classificationRequest emailSubject emailBody
                                            availableLabels) ;;
       settle (matchSuggestedLabels response availableLabels))
      (fun _error => ret []).

(** [{ subject: string; sender: string; bodyPreview: string }] *)
Record EmailData := mkEmailData {
  dataSubject : string;
  dataSender : string;
  dataBodyPreview : string;
}.

Definition summaryPrompt (emailData : list EmailData) (customPrompt : string)
  : string :=
  let emailTexts :=
    String.concat (nl ++ nl ++ "---" ++ nl ++ nl)
      (map (fun e =>
              "Subject: " ++ dataSubject e ++ nl
              ++ "From: " ++ dataSender e ++ nl
              ++ dataBodyPreview e)
           emailData) in
  customPrompt ++ nl ++ nl ++ "Emails to summarize:" ++ nl ++ nl ++ emailTexts.

Definition summaryRequest (emailData : list EmailData) (customPrompt : string)
  : ChatRequest :=
  mkChatRequest "gpt-5" (summaryPrompt emailData customPrompt) false 2048.

(** [content || "Summary generation failed."] *)
Definition contentOrFallback (m : option Message) : string :=
  match m with
  | None => "Summary generation failed."
  | Some msg =>
      if content msg =? EmptyString then "Summary generation failed." else content msg
  end.

Definition generateWorkflowSummary (emailData : list EmailData)
    (customPrompt : string) : Promise string :=
  if (List.length emailData =? 0)%nat
  then ret "No emails found matching the workflow criteria."
  else
    tryCatch
      (response <- chatCompletionsCreate (summaryRequest emailData customPrompt) ;;
       match response with
       | ChatRejected => throw "OpenAI request failed"
       | ChatContent m => ret (contentOrFallback m)
       end)
      (fun _error => throw "Failed to generate summary").

(** ** server/routes.ts *)

Inductive ResponseBody :=
| JsonMessage (message : string)
| JsonExecution (execution : WorkflowExecution.t)
| JsonClassified (message : string) (labelIds : list string).

Record Response := mkResponse {
  status : nat;
  body : ResponseBody;
}.

(** [res.status(code).json({ message })] *)
Definition statusMessage (code : nat) (message : string) : Promise Response :=
  ret (mkResponse code (JsonMessage message)).

(** POST /api/emails/:id/classify *)
Definition classifyRoute (userId emailId : string) : Promise Response :=
  tryCatch
    (email <- getEmailById emailId userId ;;
     match email with
     | None => statusMessage 404 "Email not found"
     | Some email =>
         labels <- getLabelsByUserId userId ;;
         if (List.length labels =? 0)%nat
         then statusMessage 400 "No labels available for classification"
         else
           suggestedLabelIds <-
             classifyEmail (Email.subject (emailColumns email))
                           (Email.bodyPreview (emailColumns email)) labels ;;
           forOf suggestedLabelIds
             (fun labelId =>
                addLabelToEmail (InsertEmailLabel.mk emailId labelId true)
                                userId) ;;;
           ret (mkResponse 200
                  (JsonClassified "Email classified" suggestedLabelIds))
     end)
    (fun _error => statusMessage 500 "Failed to classify email").

(** The filter step of the execute route (lines 340-345):
    [filters.labelIds && filters.labelIds.length > 0] selects by label,
    anything else keeps [allEmails]. *)
Definition filterEmails (filters : Filters.t) (allEmails : list EmailWithLabels)
  : list EmailWithLabels :=
  match Filters.labelIds filters with
  | Some labelIds =>
      if (0 <? List.length labelIds)%nat
      then
        filter
          (fun email =>
             existsb
               (fun el =>
                  existsb (fun x => x =? Label.id (label el)) labelIds)
               (labels email))
          allEmails
      else allEmails
  | None => allEmails
  end.

(** [e => ({ subject: e.subject, sender: e.sender, bodyPreview: e.bodyPreview })] *)
Definition emailDataOf (e : EmailWithLabels) : EmailData :=
  mkEmailData (Email.subject (emailColumns e)) (Email.sender (emailColumns e))
              (Email.bodyPreview (emailColumns e)).

(** [{ lastRunAt: new Date() }] *)
Definition lastRunPatch (now : Z) : WorkflowPatch.t :=
  WorkflowPatch.mk None None None None None None None (Some (Some now)) None.

(** POST /api/workflows/:id/execute *)
Definition executeRoute (userId id : string) : Promise Response :=
  tryCatch
    (workflow <- getWorkflowById id userId ;;
     match workflow with
     | None => statusMessage 404 "Workflow not found"
     | Some workflow =>
         allEmails <- getEmailsByUserId (Workflow.userId workflow) ;;
         let filteredEmails := filterEmails (Workflow.filters workflow) allEmails in
         if (List.length filteredEmails =? 0)%nat
         then statusMessage 400 "No emails match the workflow criteria"
         else
           summary <-
             generateWorkflowSummary
               (map emailDataOf filteredEmails)
               (Workflow.prompt workflow) ;;
           execution <-
             createWorkflowExecution
               (InsertWorkflowExecution.mk (Workflow.id workflow) summary
                  (Z.of_nat (List.length filteredEmails))) ;;
           now <- newDate ;;
           updateWorkflow (Workflow.id workflow) userId (lastRunPatch now) ;;;
           ret (mkResponse 200 (JsonExecution execution))
     end)
    (fun _error => statusMessage 500 "Failed to execute workflow").

(** * More of the server *)

(** ** server/storage.ts: the remaining email, label and workflow operations *)

(** The database with one table replaced. *)
Definition withEmails (d : Database) (rows : list Email.t) : Database :=
  mkDatabase (users d) (emailAccounts d) rows (labelsTable d) (emailLabels d)
             (workflows d) (workflowExecutions d).

Definition withEmailLabels (d : Database) (rows : list EmailLabel.t)
  : Database :=
  mkDatabase (users d) (emailAccounts d) (emails d) (labelsTable d) rows
             (workflows d) (workflowExecutions d).


(** [.set({ isRead })] on one row *)
Definition setIsRead (isRead : bool) (e : Email.t) : Email.t :=
  Email.mk (Email.id e) (Email.emailAccountId e) (Email.messageId e)
           (Email.subject e) (Email.sender e) (Email.senderEmail e)
           (Email.receivedAt e) (Email.bodyPreview e) (Email.bodyFull e)
           isRead.

Definition markEmailAsRead (emailId userId : string) (isRead : bool)
  : Promise unit :=
  email <- getEmailById emailId userId ;;
  match email with
  | None => throw "Email not found"
  | Some _ =>
      fun w =>
        setDb (withEmails (db w)
                 (map (fun e => if Email.id e =? emailId
                                then setIsRead isRead e else e)
                      (emails (db w)))) w
  end.

Definition removeLabelFromEmail (emailId labelId userId : string)
  : Promise unit :=
  email <- getEmailById emailId userId ;;
  label <- getLabelById labelId userId ;;
  match email, label with
  | Some _, Some _ =>
      fun w =>
        setDb (withEmailLabels (db w)
                 (filter
                    (fun r => negb ((EmailLabel.emailId r =? emailId)
                                    && (EmailLabel.labelId r =? labelId)))
                    (emailLabels (db w)))) w
  | _, _ => throw "Email or label not found"
  end.

Definition applyLabelPatch (data : LabelPatch.t) (l : Label.t) : Label.t :=
  let pick {A} (o : option A) (old : A) : A :=
    match o with Some v => v | None => old end in
  Label.mk (Label.id l)
           (pick (LabelPatch.userId data) (Label.userId l))
           (pick (LabelPatch.name data) (Label.name l))
           (pick (LabelPatch.color data) (Label.color l))
           (pick (LabelPatch.description data) (Label.description l)).

(** [.set(data)] of a patch without any value throws, as for workflows. *)
Definition noLabelValuesToSet (data : LabelPatch.t) : bool :=
  match data with
  | LabelPatch.mk None None None None => true
  | _ => false
  end.

Definition updateLabel (labelId userId : string) (data : LabelPatch.t)
  : Promise (option Label.t) :=
  fun w =>
    let d := db w in
    let hit l := (Label.id l =? labelId) && (Label.userId l =? userId) in
    if noLabelValuesToSet data then (Threw "No values to set", w)
    else if violatesUserKey d (LabelPatch.userId data) userId
              (existsb hit (labelsTable d))
    then (Threw "violates foreign key constraint", w)
    else
      (Resolved
         (hd_error (map (applyLabelPatch data) (filter hit (labelsTable d)))),
       mkWorld (mkDatabase (users d) (emailAccounts d) (emails d)
                  (map (fun l => if hit l then applyLabelPatch data l else l)
                       (labelsTable d))
                  (emailLabels d) (workflows d) (workflowExecutions d))
               (clock w) (openai w) (sent w)).

(** [db.delete(labels).where(...)]; [emailLabels.labelId] references
    [labels.id] with [onDelete: 'cascade'], so the associations of a deleted
    label go with it. *)
Definition deleteLabel (labelId userId : string) : Promise unit :=
  fun w =>
    let d := db w in
    let hit l := (Label.id l =? labelId) && (Label.userId l =? userId) in
    let deleted := filter hit (labelsTable d) in
    setDb (mkDatabase (users d) (emailAccounts d) (emails d)
             (filter (fun l => negb (hit l)) (labelsTable d))
             (filter
                (fun r => negb (existsb
                                  (fun l => Label.id l =? EmailLabel.labelId r)
                                  deleted))
                (emailLabels d))
             (workflows d) (workflowExecutions d)) w.

(** [db.delete(workflows).where(...)]; [workflowExecutions.workflowId]
    references [workflows.id] with [onDelete: 'cascade']. *)
Definition deleteWorkflow (workflowId userId : string) : Promise unit :=
  fun w =>
    let d := db w in
    let hit wf :=
      (Workflow.id wf =? workflowId) && (Workflow.userId wf =? userId) in
    let deleted := filter hit (workflows d) in
    setDb (mkDatabase (users d) (emailAccounts d) (emails d) (labelsTable d)
             (emailLabels d)
             (filter (fun wf => negb (hit wf)) (workflows d))
             (filter
                (fun x => negb (existsb
                                  (fun wf => Workflow.id wf
                                             =? WorkflowExecution.workflowId x)
                                  deleted))
                (workflowExecutions d))) w.

(** [desc(workflowExecutions.executedAt)]: the column is nullable, and a
    descending order puts the nulls first. *)
Definition executedAtDesc (x y : WorkflowExecution.t) : bool :=
  match WorkflowExecution.executedAt x, WorkflowExecution.executedAt y with
  | None, _ => true
  | Some _, None => false
  | Some a, Some b => (b <=? a)%Z
  end.

Definition getExecutionsByWorkflowId (workflowId userId : string)
  : Promise (list WorkflowExecution.t) :=
  query (fun d =>
    let rows :=
      flat_map
        (fun x =>
           flat_map
             (fun wf =>
                if (WorkflowExecution.workflowId x =? Workflow.id wf)
                   && ((WorkflowExecution.workflowId x =? workflowId)
                       && (Workflow.userId wf =? userId))
                then [x] else [])
             (workflows d))
        (workflowExecutions d) in
    firstn 10 (orderBy executedAtDesc rows)).

Record Stats := mkStats {
  totalEmails : nat;
  unreadEmails : nat;
  totalLabels : nat;
  activeWorkflows : nat;
}.

(** The three counting queries; [x?.count || 0] of a count is the count. *)
Definition getStats (userId : string) : Promise Stats :=
  query (fun d =>
    let userEmails :=
      flat_map
        (fun e =>
           flat_map
             (fun a =>
                if (Email.emailAccountId e =? EmailAccount.id a)
                   && (EmailAccount.userId a =? userId)
                then [e] else [])
             (emailAccounts d))
        (emails d) in
    mkStats
      (List.length userEmails)
      (List.length (filter (fun e => negb (Email.isRead e)) userEmails))
      (List.length (filter (fun l => Label.userId l =? userId) (labelsTable d)))
      (List.length
         (filter (fun wf => (Workflow.userId wf =? userId) && Workflow.isActive wf)
                 (workflows d)))).

(** ** server/routes.ts: the delete routes *)

(** DELETE /api/emails/:emailId/labels/:labelId *)
Definition removeLabelRoute (userId emailId labelId : string)
  : Promise Response :=
  tryCatch
    (removeLabelFromEmail emailId labelId userId ;;;
     ret (mkResponse 200 (JsonMessage "Label removed")))
    (fun _error => statusMessage 500 "Failed to remove label").

(** DELETE /api/labels/:id *)
Definition deleteLabelRoute (userId id : string) : Promise Response :=
  tryCatch
    (deleteLabel id userId ;;;
     ret (mkResponse 200 (JsonMessage "Label deleted")))
    (fun _error => statusMessage 500 "Failed to delete label").

(** DELETE /api/workflows/:id *)
Definition deleteWorkflowRoute (userId id : string) : Promise Response :=
  tryCatch
    (deleteWorkflow id userId ;;;
     ret (mkResponse 200 (JsonMessage "Workflow deleted")))
    (fun _error => statusMessage 500 "Failed to delete workflow").

(** ** client: the inbox search and the label checkboxes *)

(** [String.prototype.includes] *)
Fixpoint includes (s sub : string) : bool :=
  if String.prefix sub s then true
  else match s with
       | EmptyString => false
       | String _ rest => includes rest sub
       end.

(** Inbox: [emails?.filter(email => subject / sender / bodyPreview, in lower
    case, includes the query in lower case)]; [emails] is undefined until
    the query has loaded. *)
Definition inboxFilteredEmails (emails : option (list EmailWithLabels))
    (searchQuery : string) : option (list EmailWithLabels) :=
  option_map
    (filter
       (fun email =>
          includes (toLowerCase (Email.subject (emailColumns email)))
                   (toLowerCase searchQuery)
          || includes (toLowerCase (Email.sender (emailColumns email)))
                      (toLowerCase searchQuery)
          || includes (toLowerCase (Email.bodyPreview (emailColumns email)))
                      (toLowerCase searchQuery)))
    emails.

(** WorkflowNew: [onCheckedChange] of the checkbox of label [labelId] over
    the form value [labelIds]. *)
Definition onCheckedChange (value : list string) (labelId : string)
    (checked : bool) : list string :=
  if checked then value ++ [labelId]
  else filter (fun v => negb (v =? labelId)) value.

(** * Reference definitions

    What the specification says, in its own terms, for comparison with the
    code above. *)

(** [l1] is [l2] with some elements left out, the order kept. *)
Inductive Subsequence {A : Type} : list A -> list A -> Prop :=
| Subsequence_nil : Subsequence [] []
| Subsequence_drop x l1 l2 : Subsequence l1 l2 -> Subsequence l1 (x :: l2)
| Subsequence_keep x l1 l2 : Subsequence l1 l2 -> Subsequence (x :: l1) (x :: l2).

(** The reference definition of the specification: an email qualifies when
    its assigned labels' identifiers intersect the filter's list; a missing
    or empty list lets everything through. *)
Definition qualifies (labelIds : list string) (e : EmailWithLabels) : Prop :=
  exists al, In al (labels e) /\ In (Label.id (label al)) labelIds.

Definition intersects (labelIds : list string) (e : EmailWithLabels) : bool :=
  existsb
    (fun wanted =>
       existsb (fun al => Label.id (label al) =? wanted) (labels e))
    labelIds.

Definition FilterEvaluator (labelIds : option (list string))
    (input : list EmailWithLabels) : list EmailWithLabels :=
  match labelIds with
  | None => input
  | Some [] => input
  | Some ((_ :: _) as wanted) => filter (intersects wanted) input
  end.





(** The classifier failed: the call was rejected, or its non-empty content
    is not JSON. *)
Definition classifierFailed (r : ChatReply) : Prop :=
  r = ChatRejected
  \/ exists msg, r = ChatContent (Some msg)
                 /\ content msg <> EmptyString /\ parsed msg = None.

(** The execution row of a run of workflow [workflowId] over [selected]
    that obtained [summary], inserted at time [now] into database [d]. *)
Definition recordedExecution (d : Database) (workflowId summary : string)
    (selected : list EmailWithLabels) (now : Z) : WorkflowExecution.t :=
  WorkflowExecution.mk
    (gen_random_uuid (map WorkflowExecution.id (workflowExecutions d)))
    workflowId summary (Z.of_nat (List.length selected)) (Some now).

(** The rows of [emailLabels] that associate the given email and label. *)
Definition associations (emailId labelId : string) (d : Database)
  : list EmailLabel.t :=
  filter
    (fun r => (EmailLabel.emailId r =? emailId) && (EmailLabel.labelId r =? labelId))
    (emailLabels d).

(** * The specification's end-to-end scenario

    One user, one account, two emails of which the first carries the label
    [Work]; three workflows; and a few language-model endpoints. *)

Definition demoUsers : list User.t :=
  [User.mk "U1" (Some "demo@example.com") (Some "Demo") None None;
   User.mk "U2" (Some "other@example.com") None None None].

Definition demoAccount : EmailAccount.t :=
  EmailAccount.mk "A1" "U1" "gmail" "demo@example.com".
Definition demoE1 : Email.t :=
  Email.mk "E1" "A1" "msg_1" "Project Update: Q4 Planning" "Sarah Johnson"
           "sarah.j@company.com" 200 "Hi team" None false.
Definition demoE2 : Email.t :=
  Email.mk "E2" "A1" "msg_2" "Team Lunch Tomorrow at 12pm" "Alex Martinez"
           "alex.m@company.com" 100 "Hey everyone!" None false.
Definition demoL1 : Label.t :=
  Label.mk "L1" "U1" "Work" "239 70% 60%" (Some "Work-related emails").
Definition demoAssignment : EmailLabel.t := EmailLabel.mk "EL1" "E1" "L1" false.
Definition demoW1 : Workflow.t :=
  Workflow.mk "W1" "U1" "Weekly work digest" None "weekly"
              (Filters.mk (Some ["L1"])) "Summarize these emails" true None None.
(** A workflow of another user. *)
Definition demoW2 : Workflow.t :=
  Workflow.mk "W2" "U2" "Someone else's digest" None "biweekly"
              (Filters.mk None) "Summarize" true None None.
(** A workflow of [U1] whose filter names a label no email carries. *)
Definition demoW3 : Workflow.t :=
  Workflow.mk "W3" "U1" "Nothing matches" None "weekly"
              (Filters.mk (Some ["L9"])) "Summarize" true None None.

Definition demoDb : Database :=
  mkDatabase demoUsers [demoAccount] [demoE1; demoE2] [demoL1] [demoAssignment]
             [demoW1; demoW2; demoW3] [].

Definition demoE1WithLabels : EmailWithLabels :=
  mkEmailWithLabels demoE1 [mkAssignedLabel demoAssignment demoL1].
Definition demoE2WithLabels : EmailWithLabels := mkEmailWithLabels demoE2 [].

(** The classifier's answer [{ "labels": ["work", "Spam"] }]. *)
Definition demoSuggestion : JsValue :=
  JObject [("labels", JArray [JString "work"; JString "Spam"])].

Definition demoClassification : Message :=
  mkMessage
    ("{ " ++ dq ++ "labels" ++ dq ++ ": [" ++ dq ++ "work" ++ dq ++ ", "
     ++ dq ++ "Spam" ++ dq ++ "] }")
    (Some demoSuggestion).

(** An endpoint that answers a classification request with
    [demoClassification] after 3 ms and a summary request with the text
    [Weekly digest], which is not JSON, after 5 ms. *)
Definition demoEndpoint (request : ChatRequest) : ChatOutcome :=
  if jsonObjectFormat request
  then mkChatOutcome 3 (ChatContent (Some demoClassification))
  else mkChatOutcome 5 (ChatContent (Some (mkMessage "Weekly digest" None))).

(** An endpoint that is down. *)
Definition downEndpoint (_ : ChatRequest) : ChatOutcome :=
  mkChatOutcome 7 ChatRejected.

(** An endpoint that answers with a null content. *)
Definition muteEndpoint (_ : ChatRequest) : ChatOutcome :=
  mkChatOutcome 2 (ChatContent None).

Definition demoWorld : World := mkWorld demoDb 1000 demoEndpoint [].
Definition downWorld : World := mkWorld demoDb 1000 downEndpoint [].
Definition muteWorld : World := mkWorld demoDb 1000 muteEndpoint [].





(** A world in which [U1] has an email account and emails but no label. *)
Definition unlabelledWorld : World :=
  mkWorld (mkDatabase demoUsers [demoAccount] [demoE1; demoE2] [] [] [demoW1] [])
          1000 demoEndpoint [].



(** * Vocabulary for the further properties *)

(** The email belongs to an account of the user. *)
Definition ownedBy (d : Database) (userId : string) (e : Email.t) : Prop :=
  exists a, In a (emailAccounts d)
            /\ Email.emailAccountId e = EmailAccount.id a
            /\ EmailAccount.userId a = userId.

(** An assigned label as the database holds it: a row of [emailLabels] for
    the email, joined with the label row it references. *)
Definition assignedIn (d : Database) (emailId : string) (al : AssignedLabel)
  : Prop :=
  In (emailLabel al) (emailLabels d)
  /\ EmailLabel.emailId (emailLabel al) = emailId
  /\ In (label al) (labelsTable d)
  /\ Label.id (label al) = EmailLabel.labelId (emailLabel al).

(** Some stored email has this identifier and sits in an account of the
    user. *)
Definition ownsEmail (d : Database) (userId emailId : string) : bool :=
  existsb
    (fun e =>
       (Email.id e =? emailId)
       && existsb
            (fun a => (Email.emailAccountId e =? EmailAccount.id a)
                      && (EmailAccount.userId a =? userId))
            (emailAccounts d))
    (emails d).

(** Some stored label has this identifier and this owner. *)
Definition ownsLabel (d : Database) (userId labelId : string) : bool :=
  existsb (fun l => (Label.id l =? labelId) && (Label.userId l =? userId))
          (labelsTable d).

(** Newest first. *)
Definition notOlder (e1 e2 : Email.t) : Prop :=
  (Email.receivedAt e2 <= Email.receivedAt e1)%Z.

(** What a row of the join is made of. *)
Definition rowFrom (d : Database) (r : EmailRow) : Prop :=
  match rowEmailLabel r, rowLabel r with
  | Some el, Some l =>
      assignedIn d (Email.id (rowEmail r)) (mkAssignedLabel el l)
  | _, _ => True
  end.

(** Key and email columns of each entry, the labels forgotten. *)
Definition heads (m : JsMap EmailWithLabels) : list (string * Email.t) :=
  map (fun kv => (fst kv, emailColumns (snd kv))) m.

(** Every label of an entry is an association of the entry's key. *)
Definition entryFrom (d : Database) (kv : string * EmailWithLabels) : Prop :=
  Forall (assignedIn d (fst kv)) (labels (snd kv)).

(** The rows [getEmailsByUserId] groups. *)
Definition userRows (d : Database) (userId : string) : list EmailRow :=
  orderBy
    (fun r1 r2 =>
       (Email.receivedAt (rowEmail r2) <=? Email.receivedAt (rowEmail r1))%Z)
    (selectEmailRows d (fun _ a => EmailAccount.userId a =? userId)).

(** What an association row says, its generated identifier aside. *)
Definition rowData (r : EmailLabel.t) : string * string * bool :=
  (EmailLabel.emailId r, EmailLabel.labelId r, EmailLabel.isAuto r).

(** The emails the first counting query of [getStats] counts. *)
Definition countedEmails (d : Database) (userId : string) : list Email.t :=
  flat_map
    (fun e =>
       flat_map
         (fun a =>
            if (Email.emailAccountId e =? EmailAccount.id a)
               && (EmailAccount.userId a =? userId)
            then [e] else [])
         (emailAccounts d))
    (emails d).

(** The new owner a patch names, if any, is acceptable: the rows keep
    their owner, or no row is updated, or the new owner is a stored user. *)
Definition ownerAccepted (d : Database) (newOwner : option string)
    (owner : string) (touched : bool) : Prop :=
  forall u, newOwner = Some u ->
    u = owner \/ touched = false
    \/ exists x, In x (users d) /\ User.id x = u.

(** * Properties *)

(** ** General facts *)

Lemma Subsequence_refl {A} (l : list A) : Subsequence l l.
Proof. induction l; constructor; assumption. Qed.

Lemma filter_Subsequence {A} (f : A -> bool) (l : list A) :
  Subsequence (filter f l) l.
Proof.
  induction l as [|x l IH]; simpl.
  - constructor.
  - destruct (f x); constructor; exact IH.
Qed.

Lemma hd_error_filter_Some {A} (f : A -> bool) (l : list A) (x : A) :
  hd_error (filter f l) = Some x -> In x l /\ f x = true.
Proof.
  intros H.
  assert (Hin : In x (filter f l)).
  { destruct (filter f l) as [|y t]; simpl in H; [discriminate|].
    injection H as ->. now left. }
  now apply filter_In in Hin.
Qed.

Lemma hd_error_filter_None {A} (f : A -> bool) (l : list A) :
  (forall x, In x l -> f x = false) -> hd_error (filter f l) = None.
Proof.
  intros H. induction l as [|y t IH]; simpl; [reflexivity|].
  rewrite (H y (or_introl eq_refl)). apply IH.
  intros x Hx. apply H. now right.
Qed.

Lemma length_string_of_list_ascii (l : list ascii) :
  String.length (string_of_list_ascii l) = List.length l.
Proof. induction l; simpl; congruence. Qed.

Lemma list_max_ge (l : list nat) (n : nat) : In n l -> (n <= list_max l)%nat.
Proof.
  induction l as [|m t IH]; simpl; [contradiction|].
  intros [-> | H]; [lia|]. specialize (IH H). lia.
Qed.

Lemma gen_random_uuid_fresh (taken : list string) :
  ~ In (gen_random_uuid taken) taken.
Proof.
  intros H.
  apply (in_map String.length) in H. apply list_max_ge in H.
  unfold gen_random_uuid in H.
  rewrite length_string_of_list_ascii, repeat_length in H. lia.
Qed.

Lemma length_nonzero {A} (l : list A) :
  l <> [] -> (List.length l =? 0)%nat = false.
Proof. destruct l; simpl; [congruence | reflexivity]. Qed.

(** ** The filter step *)

Lemma intersects_qualifies labelIds e :
  intersects labelIds e = true <-> qualifies labelIds e.
Proof.
  unfold intersects, qualifies. rewrite existsb_exists. split.
  - intros (wanted & Hw & H). apply existsb_exists in H as (al & Hal & Heq).
    apply String.eqb_eq in Heq. exists al. split; [assumption|]. now rewrite Heq.
  - intros (al & Hal & Hin). exists (Label.id (label al)). split; [assumption|].
    apply existsb_exists. exists al. split; [assumption|]. apply String.eqb_refl.
Qed.

Lemma route_predicate_intersects labelIds e :
  existsb (fun el => existsb (fun x => x =? Label.id (label el)) labelIds)
          (labels e)
  = intersects labelIds e.
Proof.
  apply eq_true_iff_eq. rewrite intersects_qualifies. unfold qualifies.
  rewrite existsb_exists. split.
  - intros (al & Hal & H). apply existsb_exists in H as (x & Hx & Heq).
    apply String.eqb_eq in Heq. subst x. now exists al.
  - intros (al & Hal & Hin). exists al. split; [assumption|].
    apply existsb_exists. exists (Label.id (label al)). split; [assumption|].
    apply String.eqb_refl.
Qed.

(** C1.  The filter step of the execute route is the specification's Filter
    Evaluator: it equals the reference definition; with a non-empty
    [labelIds] an email is in the output exactly when it is in the input and
    one of its assigned labels' identifiers is in [labelIds]; with [labelIds]
    missing or empty the output is the input; and the output is always a
    subsequence of the input. *)
Theorem filterEmails_is_FilterEvaluator
    (filters : Filters.t) (allEmails : list EmailWithLabels) :
  filterEmails filters allEmails
    = FilterEvaluator (Filters.labelIds filters) allEmails
  /\ (forall labelIds,
        Filters.labelIds filters = Some labelIds -> labelIds <> [] ->
        forall e, In e (filterEmails filters allEmails)
                  <-> In e allEmails /\ qualifies labelIds e)
  /\ (Filters.labelIds filters = None \/ Filters.labelIds filters = Some [] ->
      filterEmails filters allEmails = allEmails)
  /\ Subsequence (filterEmails filters allEmails) allEmails.
Proof.
  unfold filterEmails, FilterEvaluator.
  destruct (Filters.labelIds filters) as [[|x ids]|] eqn:E.
  - simpl. repeat split; try apply Subsequence_refl; intros; congruence.
  - change (0 <? List.length (x :: ids))%nat with true. cbv iota.
    assert (Hf : filter
                   (fun email =>
                      existsb
                        (fun el =>
                           existsb (fun y => y =? Label.id (label el)) (x :: ids))
                        (labels email)) allEmails
                 = filter (intersects (x :: ids)) allEmails).
    { apply filter_ext. intros e. apply route_predicate_intersects. }
    rewrite Hf. split; [reflexivity|]. split; [|split].
    + intros labelIds Heq _ e. injection Heq as <-.
      rewrite filter_In, intersects_qualifies. reflexivity.
    + intros [H | H]; discriminate.
    + apply filter_Subsequence.
  - simpl. repeat split; try apply Subsequence_refl; intros; congruence.
Qed.

Lemma filterEmails_scenario :
  filterEmails (Workflow.filters demoW1) [demoE1WithLabels; demoE2WithLabels]
  = [demoE1WithLabels]
  /\ (In demoE1WithLabels
         (filterEmails (Workflow.filters demoW1)
                       [demoE1WithLabels; demoE2WithLabels])
      <-> In demoE1WithLabels [demoE1WithLabels; demoE2WithLabels]
          /\ qualifies ["L1"] demoE1WithLabels).
Proof.
  destruct (filterEmails_is_FilterEvaluator
              (Workflow.filters demoW1) [demoE1WithLabels; demoE2WithLabels])
    as (Href & Hiff & _ & _).
  split.
  - rewrite Href. reflexivity.
  - apply (Hiff ["L1"]); [reflexivity | discriminate].
Defined.

(** ** Loading a workflow *)

(** C6.  A workflow lookup is scoped to the requesting user: whatever
    [getWorkflowById] returns is a stored workflow with the requested
    identifier and owned by the requester; and when no stored workflow has
    both the identifier and the requester as owner (it does not exist, or it
    belongs to someone else), the lookup returns nothing, and the execute
    route answers 404 "Workflow not found" and leaves the world as it was. *)
Theorem getWorkflowById_scoped (userId id : string) (w : World) :
  (forall wf w',
      getWorkflowById id userId w = (Resolved (Some wf), w') ->
      Workflow.userId wf = userId /\ Workflow.id wf = id
      /\ In wf (workflows (db w)) /\ w' = w)
  /\ ((forall wf, In wf (workflows (db w)) ->
                  Workflow.id wf = id -> Workflow.userId wf <> userId) ->
      getWorkflowById id userId w = (Resolved None, w)
      /\ executeRoute userId id w
         = (Resolved (mkResponse 404 (JsonMessage "Workflow not found")), w)).
Proof.
  split.
  - intros wf w' H. unfold getWorkflowById, query in H.
    injection H as H <-.
    apply hd_error_filter_Some in H as [Hin Hc].
    apply andb_true_iff in Hc as [Hid Hu].
    apply String.eqb_eq in Hid, Hu. auto.
  - intros Hnone.
    assert (Hq : getWorkflowById id userId w = (Resolved None, w)).
    { unfold getWorkflowById, query. f_equal. f_equal.
      apply hd_error_filter_None. intros wf Hin.
      destruct (Workflow.id wf =? id) eqn:Hid; [|reflexivity].
      apply String.eqb_eq in Hid. simpl.
      apply String.eqb_neq. now apply Hnone. }
    split; [exact Hq|].
    unfold executeRoute, tryCatch, bind. rewrite Hq. reflexivity.
Qed.

Lemma getWorkflowById_foreign_workflow :
  getWorkflowById "W2" "U1" demoWorld = (Resolved None, demoWorld)
  /\ executeRoute "U1" "W2" demoWorld
     = (Resolved (mkResponse 404 (JsonMessage "Workflow not found")), demoWorld).
Proof.
  apply (getWorkflowById_scoped "U1" "W2" demoWorld).
  intros wf Hin Hid. simpl in Hin.
  destruct Hin as [<- | [<- | [<- | []]]]; simpl in *; discriminate.
Defined.

(** ** Running a workflow *)

(** What [generateWorkflowSummary] does with a non-empty list: one request,
    whose outcome decides between the summary text and the re-thrown error. *)
Lemma generateWorkflowSummary_run emailData customPrompt w :
  emailData <> [] ->
  generateWorkflowSummary emailData customPrompt w
  = let outcome := openai w (summaryRequest emailData customPrompt) in
    let w1 := mkWorld (db w) (clock w + Z.of_N (elapsed outcome)) (openai w)
                      (sent w ++ [summaryRequest emailData customPrompt]) in
    match reply outcome with
    | ChatRejected => (Threw "Failed to generate summary", w1)
    | ChatContent m => (Resolved (contentOrFallback m), w1)
    end.
Proof.
  intros Hne. unfold generateWorkflowSummary.
  rewrite (length_nonzero _ Hne).
  unfold tryCatch, bind, chatCompletionsCreate. cbv zeta.
  destruct (reply (openai w (summaryRequest emailData customPrompt)));
    reflexivity.
Qed.

Lemma generateWorkflowSummary_frame emailData customPrompt w r w1 :
  generateWorkflowSummary emailData customPrompt w = (r, w1) ->
  db w1 = db w /\ openai w1 = openai w /\ (clock w <= clock w1)%Z.
Proof.
  destruct emailData as [|e rest].
  - unfold generateWorkflowSummary. simpl. unfold ret.
    intros H. injection H as _ <-. repeat split; lia.
  - rewrite generateWorkflowSummary_run by discriminate. cbv zeta.
    destruct (reply _); intros H; injection H as _ <-; simpl;
      repeat split; lia.
Qed.

Lemma filter_map_patch (hit : Workflow.t -> bool) (f : Workflow.t -> Workflow.t)
    (ws : list Workflow.t) :
  (forall wf, hit (f wf) = hit wf) ->
  filter hit (map (fun wf => if hit wf then f wf else wf) ws)
  = map f (filter hit ws).
Proof.
  intros Hkeep. induction ws as [|wf ws IH]; simpl; [reflexivity|].
  destruct (hit wf) eqn:E.
  - rewrite Hkeep, E. simpl. now rewrite IH.
  - rewrite E. exact IH.
Qed.

(** C4.  When the filter selects no email, the execute route answers
    400 "No emails match the workflow criteria" and the world is exactly
    what it was: no request was sent to the model, no execution was
    written, nothing else changed. *)
Theorem executeRoute_empty_selection
    (userId id : string) (w : World) (workflow : Workflow.t)
    (allEmails : list EmailWithLabels) :
  getWorkflowById id userId w = (Resolved (Some workflow), w) ->
  getEmailsByUserId (Workflow.userId workflow) w = (Resolved allEmails, w) ->
  filterEmails (Workflow.filters workflow) allEmails = [] ->
  executeRoute userId id w
  = (Resolved (mkResponse 400 (JsonMessage "No emails match the workflow criteria")),
     w).
Proof.
  intros Hload Hall Hnone.
  unfold executeRoute, tryCatch, bind.
  rewrite Hload, Hall, Hnone. reflexivity.
Qed.

Lemma executeRoute_empty_selection_demo :
  executeRoute "U1" "W3" demoWorld
  = (Resolved (mkResponse 400 (JsonMessage "No emails match the workflow criteria")),
     demoWorld).
Proof.
  apply (executeRoute_empty_selection "U1" "W3" demoWorld demoW3
           [demoE1WithLabels; demoE2WithLabels]); reflexivity.
Defined.

(** C5.  When the summary request fails, [generateWorkflowSummary] throws,
    the execute route answers 500 "Failed to execute workflow", and the
    database is what it was before the run: no execution row, no change to
    the workflow's last-run marker. *)
Theorem executeRoute_summary_failure
    (userId id : string) (w : World) (workflow : Workflow.t)
    (allEmails selected : list EmailWithLabels) :
  getWorkflowById id userId w = (Resolved (Some workflow), w) ->
  getEmailsByUserId (Workflow.userId workflow) w = (Resolved allEmails, w) ->
  filterEmails (Workflow.filters workflow) allEmails = selected ->
  selected <> [] ->
  reply (openai w (summaryRequest (map emailDataOf selected)
                                  (Workflow.prompt workflow)))
  = ChatRejected ->
  exists w',
    generateWorkflowSummary (map emailDataOf selected)
                            (Workflow.prompt workflow) w
    = (Threw "Failed to generate summary", w')
    /\ executeRoute userId id w
       = (Resolved (mkResponse 500 (JsonMessage "Failed to execute workflow")),
          w')
    /\ db w' = db w.
Proof.
  intros Hload Hall Hsel Hne Hfail.
  assert (Hdata : map emailDataOf selected <> []).
  { destruct selected; [congruence | discriminate]. }
  pose proof (generateWorkflowSummary_run _ (Workflow.prompt workflow) w Hdata)
    as Hrun.
  cbv zeta in Hrun. rewrite Hfail in Hrun.
  eexists. split; [exact Hrun|]. split; [|reflexivity].
  unfold executeRoute, tryCatch, bind.
  rewrite Hload, Hall, Hsel.
  rewrite (length_nonzero _ Hne), Hrun. reflexivity.
Qed.

Lemma executeRoute_summary_failure_demo :
  exists w',
    generateWorkflowSummary [emailDataOf demoE1WithLabels]
                            (Workflow.prompt demoW1) downWorld
    = (Threw "Failed to generate summary", w')
    /\ executeRoute "U1" "W1" downWorld
       = (Resolved (mkResponse 500 (JsonMessage "Failed to execute workflow")),
          w')
    /\ db w' = db downWorld.
Proof.
  apply (executeRoute_summary_failure "U1" "W1" downWorld demoW1
           [demoE1WithLabels; demoE2WithLabels] [demoE1WithLabels]);
    [reflexivity | reflexivity | reflexivity | discriminate | reflexivity].
Defined.

(** The execute route once the summary has come back: the response, and
    the database it leaves behind. *)
Lemma executeRoute_after_summary
    (userId id : string) (w w1 : World) (workflow : Workflow.t)
    (allEmails selected : list EmailWithLabels) (summary : string) :
  getWorkflowById id userId w = (Resolved (Some workflow), w) ->
  getEmailsByUserId (Workflow.userId workflow) w = (Resolved allEmails, w) ->
  filterEmails (Workflow.filters workflow) allEmails = selected ->
  selected <> [] ->
  generateWorkflowSummary (map emailDataOf selected) (Workflow.prompt workflow) w
  = (Resolved summary, w1) ->
  exists w',
    executeRoute userId id w
    = (Resolved
         (mkResponse 200
            (JsonExecution
               (recordedExecution (db w) id summary selected (clock w1)))),
       w')
    /\ db w'
       = mkDatabase
           (users (db w)) (emailAccounts (db w)) (emails (db w))
           (labelsTable (db w)) (emailLabels (db w))
           (map (fun wf =>
                   if (Workflow.id wf =? id) && (Workflow.userId wf =? userId)
                   then applyPatch (lastRunPatch (clock w1)) wf else wf)
                (workflows (db w)))
           (workflowExecutions (db w)
            ++ [recordedExecution (db w) id summary selected (clock w1)])%list.
Proof.
  intros Hload Hall Hsel Hne Hsum.
  destruct (generateWorkflowSummary_frame _ _ _ _ _ Hsum) as (Hdb & _ & _).
  pose proof Hload as Hfound. unfold getWorkflowById, query in Hfound.
  injection Hfound as Hfound.
  destruct (hd_error_filter_Some _ _ _ Hfound) as [Hin Hhit].
  apply andb_true_iff in Hhit as [Hid _].
  apply String.eqb_eq in Hid.
  assert (Hfk : existsb (fun wf => Workflow.id wf =? Workflow.id workflow)
                        (workflows (db w1)) = true).
  { rewrite Hdb. apply existsb_exists. exists workflow.
    split; [assumption | apply String.eqb_refl]. }
  set (newId := gen_random_uuid (map WorkflowExecution.id
                                     (workflowExecutions (db w1)))).
  assert (Hpk : existsb (fun r => WorkflowExecution.id r =? newId)
                        (workflowExecutions (db w1)) = false).
  { apply not_true_is_false. intros H.
    apply existsb_exists in H as (r & Hr & Heq). apply String.eqb_eq in Heq.
    apply (gen_random_uuid_fresh
             (map WorkflowExecution.id (workflowExecutions (db w1)))).
    fold newId. rewrite <- Heq. now apply in_map. }
  eexists. split.
  { unfold executeRoute, tryCatch, bind.
    rewrite Hload, Hall, Hsel, (length_nonzero _ Hne), Hsum.
    unfold createWorkflowExecution. cbn [WorkflowExecution.workflowId
      WorkflowExecution.id InsertWorkflowExecution.workflowId
      InsertWorkflowExecution.summary InsertWorkflowExecution.emailCount].
    rewrite Hfk. fold newId. rewrite Hpk.
    cbn [negb]. cbv iota. unfold recordedExecution, newDate, updateWorkflow.
    subst newId. cbn [db clock workflows]. rewrite Hdb, Hid. reflexivity. }
  reflexivity.
Qed.

(** C2.  A run whose selection is not empty and whose summary call succeeds
    answers with the execution it created; the executions table has grown
    by exactly that row, whose [emailCount] is the number of selected
    emails and whose [summary] is the text that came back; and the workflow
    now carries a last-run timestamp that is not before the time at which
    the run started. *)
Theorem executeRoute_records_one_execution
    (userId id : string) (w w1 : World) (workflow : Workflow.t)
    (allEmails selected : list EmailWithLabels) (summary : string) :
  getWorkflowById id userId w = (Resolved (Some workflow), w) ->
  getEmailsByUserId (Workflow.userId workflow) w = (Resolved allEmails, w) ->
  filterEmails (Workflow.filters workflow) allEmails = selected ->
  selected <> [] ->
  generateWorkflowSummary (map emailDataOf selected) (Workflow.prompt workflow) w
  = (Resolved summary, w1) ->
  exists execution w',
    executeRoute userId id w
    = (Resolved (mkResponse 200 (JsonExecution execution)), w')
    /\ workflowExecutions (db w')
       = (workflowExecutions (db w) ++ [execution])%list
    /\ WorkflowExecution.workflowId execution = id
    /\ WorkflowExecution.emailCount execution = Z.of_nat (List.length selected)
    /\ WorkflowExecution.summary execution = summary
    /\ exists updated lastRun,
         getWorkflowById id userId w' = (Resolved (Some updated), w')
         /\ Workflow.lastRunAt updated = Some lastRun
         /\ (clock w <= lastRun)%Z.
Proof.
  intros Hload Hall Hsel Hne Hsum.
  destruct (executeRoute_after_summary _ _ _ _ _ _ _ _
              Hload Hall Hsel Hne Hsum) as (w' & Hroute & Hdb').
  destruct (generateWorkflowSummary_frame _ _ _ _ _ Hsum) as (_ & _ & Hclock).
  exists (recordedExecution (db w) id summary selected (clock w1)), w'.
  split; [exact Hroute|].
  rewrite Hdb'. cbn [workflowExecutions].
  split; [reflexivity|]. split; [reflexivity|].
  split; [reflexivity|]. split; [reflexivity|].
  unfold getWorkflowById, query in *. rewrite Hdb'. cbn [workflows].
  rewrite (filter_map_patch
             (fun wf => (Workflow.id wf =? id) && (Workflow.userId wf =? userId)))
    by reflexivity.
  injection Hload as Hload.
  destruct (filter _ (workflows (db w))) as [|first others]; [discriminate|].
  eexists. exists (clock w1).
  split; [reflexivity|]. split; [reflexivity | exact Hclock].
Qed.

Lemma executeRoute_records_one_execution_demo :
  exists execution w',
    executeRoute "U1" "W1" demoWorld
    = (Resolved (mkResponse 200 (JsonExecution execution)), w')
    /\ workflowExecutions (db w')
       = (workflowExecutions (db demoWorld) ++ [execution])%list
    /\ WorkflowExecution.workflowId execution = "W1"
    /\ WorkflowExecution.emailCount execution = 1%Z
    /\ WorkflowExecution.summary execution = "Weekly digest"
    /\ exists updated lastRun,
         getWorkflowById "W1" "U1" w' = (Resolved (Some updated), w')
         /\ Workflow.lastRunAt updated = Some lastRun
         /\ (clock demoWorld <= lastRun)%Z.
Proof.
  apply (executeRoute_records_one_execution "U1" "W1" demoWorld
           (snd (generateWorkflowSummary [emailDataOf demoE1WithLabels]
                                         (Workflow.prompt demoW1) demoWorld))
           demoW1 [demoE1WithLabels; demoE2WithLabels] [demoE1WithLabels]
           "Weekly digest");
    [reflexivity | reflexivity | reflexivity | discriminate | reflexivity].
Defined.

(** ** Classification *)

(** What [classifyEmail] does with a non-empty candidate list: one request;
    whatever is thrown while reading the reply becomes the empty list. *)
Lemma classifyEmail_run emailSubject emailBody availableLabels w :
  availableLabels <> [] ->
  classifyEmail emailSubject emailBody availableLabels w
  = let request :=
      classificationRequest emailSubject emailBody availableLabels in
    let outcome := openai w request in
    (Resolved
       match matchSuggestedLabels (reply outcome) availableLabels with
       | Resolved ids => ids
       | Threw _ => []
       end,
     mkWorld (db w) (clock w + Z.of_N (elapsed outcome)) (openai w)
             (sent w ++ [request])%list).
Proof.
  intros Hne. unfold classifyEmail. rewrite (length_nonzero _ Hne).
  unfold tryCatch, bind, chatCompletionsCreate, settle, ret. cbv zeta.
  destruct (matchSuggestedLabels _ availableLabels); reflexivity.
Qed.



Lemma filterS_Subsequence {A} (cb : A -> Settled bool) (l kept : list A) :
  filterS cb l = Resolved kept -> Subsequence kept l.
Proof.
  revert kept. induction l as [|x l IH]; simpl; intros kept H.
  - injection H as <-. constructor.
  - destruct (cb x) as [b|]; simpl in H; [|discriminate].
    destruct (filterS cb l) as [rest|]; simpl in H; [|discriminate].
    injection H as <-. specialize (IH rest eq_refl).
    destruct b; constructor; exact IH.
Qed.

Lemma Subsequence_In {A} (l1 l2 : list A) (x : A) :
  Subsequence l1 l2 -> In x l1 -> In x l2.
Proof.
  induction 1; simpl; intros Hin; auto.
  destruct Hin; auto.
Qed.

Lemma matchSuggestedLabels_candidates r availableLabels ids :
  matchSuggestedLabels r availableLabels = Resolved ids ->
  forall id, In id ids -> exists l, In l availableLabels /\ Label.id l = id.
Proof.
  unfold matchSuggestedLabels. destruct r as [|m]; [discriminate|].
  destruct (parseContentOrEmptyObject m) as [result|]; simpl; [|discriminate].
  destruct (getProperty result "labels") as [field|]; simpl; [|discriminate].
  destruct (filterS _ availableLabels) as [matching|] eqn:E; simpl;
    [|discriminate].
  intros H id Hin. injection H as <-.
  apply in_map_iff in Hin as (l & Hid & Hl). exists l. split; [|exact Hid].
  eapply Subsequence_In; [eapply filterS_Subsequence; exact E | exact Hl].
Qed.






Lemma matchSuggestedLabels_failed r availableLabels :
  classifierFailed r ->
  exists e, matchSuggestedLabels r availableLabels = Threw e.
Proof.
  intros [-> | (msg & -> & Hcontent & Hparsed)].
  - eexists. reflexivity.
  - unfold matchSuggestedLabels, parseContentOrEmptyObject.
    apply String.eqb_neq in Hcontent. rewrite Hcontent, Hparsed.
    eexists. reflexivity.
Qed.

(** C8.  A classifier call that is rejected, or whose content does not
    parse, does not make [classifyEmail] throw: it resolves with the empty
    list.  The classify route then answers 200 with no label identifiers and
    the database is untouched, so no association is created. *)
Theorem classifyEmail_swallows_failures
    (emailSubject emailBody : string) (availableLabels : list Label.t)
    (w : World) :
  classifierFailed
    (reply (openai w (classificationRequest emailSubject emailBody
                                            availableLabels))) ->
  (exists w',
      classifyEmail emailSubject emailBody availableLabels w = (Resolved [], w')
      /\ db w' = db w)
  /\ (forall userId emailId email,
        getEmailById emailId userId w = (Resolved (Some email), w) ->
        getLabelsByUserId userId w = (Resolved availableLabels, w) ->
        availableLabels <> [] ->
        emailSubject = Email.subject (emailColumns email) ->
        emailBody = Email.bodyPreview (emailColumns email) ->
        exists w',
          classifyRoute userId emailId w
          = (Resolved (mkResponse 200 (JsonClassified "Email classified" [])), w')
          /\ db w' = db w).
Proof.
  intros Hfailed.
  destruct (matchSuggestedLabels_failed _ availableLabels Hfailed) as [e He].
  split.
  - destruct availableLabels as [|l0 rest] eqn:Hlabels.
    + exists w. split; reflexivity.
    + rewrite <- Hlabels in *.
      rewrite classifyEmail_run by (rewrite Hlabels; discriminate).
      cbv zeta. rewrite He. eexists. split; reflexivity.
  - intros userId emailId email Hemail Hlabels Hne -> ->.
    unfold classifyRoute, tryCatch, bind.
    rewrite Hemail, Hlabels, (length_nonzero _ Hne).
    rewrite (classifyEmail_run _ _ _ w Hne). cbv zeta. rewrite He.
    simpl. eexists. split; reflexivity.
Qed.

Lemma filter_none {A} (f : A -> bool) (l : list A) :
  (forall x, In x l -> f x = false) -> filter f l = [].
Proof.
  intros H. induction l as [|x l IH]; simpl; [reflexivity|].
  rewrite (H x (or_introl eq_refl)). apply IH. intros y Hy. apply H. now right.
Qed.

(** C9.  [classifyEmail] called with no candidate label resolves with the
    empty list and leaves the world, in particular the log of requests, as
    it was.  And when the user owns no label, the classify route, for an
    email of that user, answers 400 "No labels available for classification"
    with the world unchanged: the model is never called. *)
Theorem classify_without_labels (w : World) :
  (forall emailSubject emailBody,
      classifyEmail emailSubject emailBody [] w = (Resolved [], w))
  /\ (forall userId emailId email,
        getEmailById emailId userId w = (Resolved (Some email), w) ->
        (forall l, In l (labelsTable (db w)) -> Label.userId l <> userId) ->
        classifyRoute userId emailId w
        = (Resolved (mkResponse 400
                       (JsonMessage "No labels available for classification")),
           w)).
Proof.
  split; [reflexivity|].
  intros userId emailId email Hemail Hnone.
  assert (Hlabels : getLabelsByUserId userId w = (Resolved [], w)).
  { unfold getLabelsByUserId, query. rewrite filter_none; [reflexivity|].
    intros l Hl. apply String.eqb_neq. now apply Hnone. }
  unfold classifyRoute, tryCatch, bind. rewrite Hemail, Hlabels. reflexivity.
Qed.

(** ** Summaries *)

(** C10.  [generateWorkflowSummary] never resolves with the empty string.
    If the model answers with a null or empty content, the call still
    succeeds, with the text "Summary generation failed."; the execute route
    then stores that text as the summary of the execution.  Called with no
    email, it resolves with "No emails found matching the workflow
    criteria." and the world, request log included, is unchanged. *)
Theorem generateWorkflowSummary_never_empty
    (emailData : list EmailData) (customPrompt : string) (w : World) :
  (forall summary w',
      generateWorkflowSummary emailData customPrompt w = (Resolved summary, w') ->
      summary <> EmptyString)
  /\ (forall m,
        emailData <> [] ->
        reply (openai w (summaryRequest emailData customPrompt)) = ChatContent m ->
        m = None \/ (exists msg, m = Some msg /\ content msg = EmptyString) ->
        exists w',
          generateWorkflowSummary emailData customPrompt w
          = (Resolved "Summary generation failed.", w')
          /\ forall userId id workflow allEmails selected,
               getWorkflowById id userId w = (Resolved (Some workflow), w) ->
               getEmailsByUserId (Workflow.userId workflow) w
               = (Resolved allEmails, w) ->
               filterEmails (Workflow.filters workflow) allEmails = selected ->
               selected <> [] ->
               map emailDataOf selected = emailData ->
               Workflow.prompt workflow = customPrompt ->
               exists execution w'',
                 executeRoute userId id w
                 = (Resolved (mkResponse 200 (JsonExecution execution)), w'')
                 /\ In execution (workflowExecutions (db w''))
                 /\ WorkflowExecution.summary execution
                    = "Summary generation failed.")
  /\ generateWorkflowSummary [] customPrompt w
     = (Resolved "No emails found matching the workflow criteria.", w).
Proof.
  split; [|split; [|reflexivity]].
  - intros summary w' H. destruct emailData as [|e rest].
    + unfold generateWorkflowSummary in H. simpl in H. unfold ret in H.
      injection H as <- _. discriminate.
    + rewrite generateWorkflowSummary_run in H by discriminate. cbv zeta in H.
      destruct (reply _) as [|m]; [discriminate|].
      injection H as <- _. unfold contentOrFallback.
      destruct m as [msg|]; [|discriminate].
      destruct (content msg =? EmptyString) eqn:E; [discriminate|].
      now apply String.eqb_neq.
  - intros m Hne Hreply Hblank.
    assert (Hfallback : contentOrFallback m = "Summary generation failed.").
    { destruct Hblank as [-> | (msg & -> & Hc)]; [reflexivity|].
      unfold contentOrFallback. now rewrite Hc. }
    pose proof (generateWorkflowSummary_run emailData customPrompt w Hne) as Hrun.
    cbv zeta in Hrun. rewrite Hreply, Hfallback in Hrun.
    eexists. split; [exact Hrun|].
    intros userId id workflow allEmails selected Hload Hall Hsel Hsome Hdata Hp.
    rewrite <- Hdata, <- Hp in Hrun.
    destruct (executeRoute_after_summary _ _ _ _ _ _ _ _
                Hload Hall Hsel Hsome Hrun) as (w'' & Hroute & Hdb'').
    eexists. exists w''. split; [exact Hroute|]. split; [|reflexivity].
    rewrite Hdb''. cbn [workflowExecutions]. apply in_or_app. right. now left.
Qed.

Lemma generateWorkflowSummary_never_empty_demo :
  exists w',
    generateWorkflowSummary [emailDataOf demoE1WithLabels]
                            (Workflow.prompt demoW1) muteWorld
    = (Resolved "Summary generation failed.", w')
    /\ exists execution w'',
         executeRoute "U1" "W1" muteWorld
         = (Resolved (mkResponse 200 (JsonExecution execution)), w'')
         /\ In execution (workflowExecutions (db w''))
         /\ WorkflowExecution.summary execution = "Summary generation failed.".
Proof.
  destruct (generateWorkflowSummary_never_empty
              [emailDataOf demoE1WithLabels] (Workflow.prompt demoW1) muteWorld)
    as (_ & H & _).
  destruct (H None) as (w' & Hrun & Hroute);
    [discriminate | reflexivity | left; reflexivity |].
  exists w'. split; [exact Hrun|].
  apply (Hroute "U1" "W1" demoW1 [demoE1WithLabels; demoE2WithLabels]
                [demoE1WithLabels]);
    [reflexivity | reflexivity | reflexivity | discriminate
    | reflexivity | reflexivity].
Defined.

(** ** Label assignment *)

Lemma associations_after_insert emailId labelId d row :
  EmailLabel.emailId row = emailId ->
  EmailLabel.labelId row = labelId ->
  List.length
    (associations emailId labelId
       (mkDatabase (users d) (emailAccounts d) (emails d) (labelsTable d)
                   (emailLabels d ++ [row]) (workflows d)
                   (workflowExecutions d)))
  = S (List.length (associations emailId labelId d)).
Proof.
  intros <- <-. unfold associations. cbn [emailLabels].
  rewrite filter_app, length_app. simpl.
  rewrite !String.eqb_refl. simpl. lia.
Qed.

(** C3.  The code against the claim.  Every call of [addLabelToEmail] that
    resolves adds a row for its pair, whatever rows exist already: the
    generated [id] is the only unique key [onConflictDoNothing] can collide
    on.  At the failing input, where [U1] assigns label [L1] to email [E2]
    twice, both calls resolve and two associations for the pair (E2, L1)
    result, where the specification promises one. *)
Theorem addLabelToEmail_twice_leaves_two_rows :
  (forall data userId w w1,
      addLabelToEmail data userId w = (Resolved tt, w1) ->
      List.length (associations (InsertEmailLabel.emailId data)
                                (InsertEmailLabel.labelId data) (db w1))
      = S (List.length (associations (InsertEmailLabel.emailId data)
                                     (InsertEmailLabel.labelId data) (db w))))
  /\ exists w1 w2,
       addLabelToEmail (InsertEmailLabel.mk "E2" "L1" false) "U1" demoWorld
       = (Resolved tt, w1)
       /\ addLabelToEmail (InsertEmailLabel.mk "E2" "L1" false) "U1" w1
          = (Resolved tt, w2)
       /\ List.length (associations "E2" "L1" (db demoWorld)) = 0%nat
       /\ List.length (associations "E2" "L1" (db w1)) = 1%nat
       /\ List.length (associations "E2" "L1" (db w2)) = 2%nat.
Proof.
  split.
  - intros data userId w w1 H.
    unfold addLabelToEmail, bind, getEmailById, getLabelById, query in H.
    destruct (match selectEmailRows (db w) _ with [] => None | _ :: _ => _ end);
      [|discriminate].
    destruct (hd_error _); [|discriminate].
    unfold insertEmailLabelOnConflictDoNothing in H. cbv zeta in H.
    destruct (negb _ || negb _); [discriminate|].
    match type of H with
    | (if existsb ?f ?l then _ else _) = _ =>
        assert (Hfresh : existsb f l = false)
    end.
    { apply not_true_is_false. intros Hex.
      apply existsb_exists in Hex as (r & Hr & Heq). apply String.eqb_eq in Heq.
      cbn [EmailLabel.id] in Heq.
      apply (gen_random_uuid_fresh (map EmailLabel.id (emailLabels (db w)))).
      rewrite <- Heq. now apply in_map. }
    rewrite Hfresh in H. unfold setDb in H. injection H as <-.
    cbn [db]. now apply associations_after_insert.
  - eexists. eexists.
    split; [reflexivity|]. split; [reflexivity|].
    repeat split.
Qed.

(** * Further properties *)

(** ** Sorting and grouping *)

Lemma insertBy_Permutation {A} (le : A -> A -> bool) (x : A) (l : list A) :
  Permutation (insertBy le x l) (x :: l).
Proof.
  induction l as [|y l IH]; simpl; [reflexivity|].
  destruct (le x y); [reflexivity|].
  rewrite IH. apply perm_swap.
Qed.

Lemma orderBy_Permutation {A} (le : A -> A -> bool) (l : list A) :
  Permutation (orderBy le l) l.
Proof.
  induction l as [|x l IH]; simpl; [reflexivity|].
  unfold orderBy in *. simpl. rewrite insertBy_Permutation.
  now apply perm_skip.
Qed.

Lemma orderBy_In {A} (le : A -> A -> bool) (l : list A) (x : A) :
  In x (orderBy le l) <-> In x l.
Proof.
  split; apply Permutation_in;
    [apply orderBy_Permutation | symmetry; apply orderBy_Permutation].
Qed.

Section Sorting.
Context {A : Type} (le : A -> A -> bool).
Hypothesis le_total : forall x y, le x y = true \/ le y x = true.
Hypothesis le_trans :
  forall x y z, le x y = true -> le y z = true -> le x z = true.

Lemma insertBy_sorted (x : A) (l : list A) :
  StronglySorted (fun a b => le a b = true) l ->
  StronglySorted (fun a b => le a b = true) (insertBy le x l).
Proof.
  induction 1 as [|y l Hs IH Hy]; simpl.
  - constructor; constructor.
  - destruct (le x y) eqn:E.
    + constructor; [constructor; assumption|].
      constructor; [exact E|].
      eapply Forall_impl; [|exact Hy]. intros z Hz. now apply (le_trans x y z).
    + constructor; [exact IH|].
      assert (Hyx : le y x = true).
      { destruct (le_total x y) as [H|H]; [congruence | exact H]. }
      eapply Permutation_Forall;
        [symmetry; apply insertBy_Permutation|].
      constructor; assumption.
Qed.

Lemma orderBy_sorted (l : list A) :
  StronglySorted (fun a b => le a b = true) (orderBy le l).
Proof.
  induction l as [|x l IH]; [constructor|].
  unfold orderBy in *. simpl. now apply insertBy_sorted.
Qed.
End Sorting.

Lemma Subsequence_StronglySorted {A} (R : A -> A -> Prop) (l1 l2 : list A) :
  Subsequence l1 l2 -> StronglySorted R l2 -> StronglySorted R l1.
Proof.
  induction 1 as [|x l1 l2 Hsub IH|x l1 l2 Hsub IH]; intros Hs.
  - constructor.
  - apply IH. now inversion Hs.
  - inversion Hs as [|? ? Hs' Hall]; subst. constructor; [now apply IH|].
    rewrite Forall_forall in *. intros y Hy. apply Hall.
    eapply Subsequence_In; eassumption.
Qed.

Lemma Subsequence_map {A B} (f : A -> B) (l1 l2 : list A) :
  Subsequence l1 l2 -> Subsequence (map f l1) (map f l2).
Proof. induction 1; simpl; constructor; assumption. Qed.

Lemma StronglySorted_map {A B} (f : A -> B) (R : B -> B -> Prop) (l : list A) :
  StronglySorted (fun a b => R (f a) (f b)) l -> StronglySorted R (map f l).
Proof.
  induction 1 as [|x l Hs IH Hall]; simpl; constructor; [assumption|].
  rewrite Forall_forall in *. intros y Hy.
  apply in_map_iff in Hy as (z & <- & Hz). now apply Hall.
Qed.

(** ** The join behind the email queries *)

Lemma leftJoinLabels_In d e r :
  In r (leftJoinLabels d e) -> rowEmail r = e /\ rowFrom d r.
Proof.
  unfold leftJoinLabels.
  destruct (filter _ (emailLabels d)) as [|el0 els] eqn:E.
  - intros [<- | []]. split; [reflexivity | exact I].
  - intros H. apply in_flat_map in H as (el & Hel & Hr).
    rewrite <- E in Hel. apply filter_In in Hel as [Hel Hid].
    apply String.eqb_eq in Hid.
    destruct (filter _ (labelsTable d)) as [|l0 ls] eqn:El.
    + destruct Hr as [<- | []]. split; [reflexivity | exact I].
    + apply in_map_iff in Hr as (l & <- & Hl).
      rewrite <- El in Hl. apply filter_In in Hl as [Hl Hlid].
      apply String.eqb_eq in Hlid.
      split; [reflexivity|]. unfold rowFrom, assignedIn. simpl. auto.
Qed.

Lemma leftJoinLabels_nonempty d e : leftJoinLabels d e <> [].
Proof.
  unfold leftJoinLabels.
  destruct (filter _ (emailLabels d)) as [|el0 els]; [discriminate|].
  simpl. destruct (filter _ (labelsTable d)); discriminate.
Qed.

Lemma selectEmailRows_In d cond r :
  In r (selectEmailRows d cond) ->
  In (rowEmail r) (emails d)
  /\ (exists a, In a (emailAccounts d)
                /\ Email.emailAccountId (rowEmail r) = EmailAccount.id a
                /\ cond (rowEmail r) a = true)
  /\ rowFrom d r.
Proof.
  unfold selectEmailRows. intros H.
  apply in_flat_map in H as (e & He & H).
  apply in_flat_map in H as (a & Ha & H).
  destruct ((Email.emailAccountId e =? EmailAccount.id a) && cond e a) eqn:E;
    [|contradiction].
  apply andb_true_iff in E as [Ejoin Econd]. apply String.eqb_eq in Ejoin.
  apply leftJoinLabels_In in H as [-> Hrow].
  split; [exact He|]. split; [|exact Hrow]. now exists a.
Qed.

Lemma selectEmailRows_complete d cond e a :
  In e (emails d) -> In a (emailAccounts d) ->
  Email.emailAccountId e = EmailAccount.id a -> cond e a = true ->
  exists r, In r (selectEmailRows d cond) /\ rowEmail r = e.
Proof.
  intros He Ha Hjoin Hcond.
  destruct (leftJoinLabels d e) as [|r rest] eqn:E;
    [now apply leftJoinLabels_nonempty in E|].
  assert (Hr : In r (leftJoinLabels d e)) by (rewrite E; now left).
  exists r. split; [|now apply leftJoinLabels_In in Hr].
  unfold selectEmailRows. apply in_flat_map. exists e. split; [exact He|].
  apply in_flat_map. exists a. split; [exact Ha|].
  rewrite Hjoin, String.eqb_refl, Hcond. exact Hr.
Qed.

(** ** The grouping loop *)

Lemma mapHas_In {V} (k : string) (m : JsMap V) :
  mapHas k m = true <-> In k (map fst m).
Proof.
  unfold mapHas. rewrite existsb_exists, in_map_iff. split.
  - intros (kv & Hin & Heq). apply String.eqb_eq in Heq. now exists kv.
  - intros (kv & Heq & Hin). exists kv. split; [exact Hin|].
    now apply String.eqb_eq.
Qed.

Lemma mapSet_absent {V} (k : string) (v : V) (m : JsMap V) :
  mapHas k m = false -> mapSet k v m = (m ++ [(k, v)])%list.
Proof.
  induction m as [|[k' v'] m IH]; simpl; [reflexivity|].
  unfold mapHas. simpl. intros H. apply orb_false_iff in H as [Hk Hrest].
  rewrite Hk. f_equal. now apply IH.
Qed.

Lemma pushRowLabel_columns row e :
  emailColumns (pushRowLabel row e) = emailColumns e.
Proof.
  unfold pushRowLabel.
  destruct (rowEmailLabel row), (rowLabel row); reflexivity.
Qed.

Lemma heads_mapModify k row m :
  heads (mapModify k (pushRowLabel row) m) = heads m.
Proof.
  unfold heads, mapModify. rewrite map_map. apply map_ext.
  intros [k' v]. simpl. destruct (k' =? k); simpl; [|reflexivity].
  now rewrite pushRowLabel_columns.
Qed.

Lemma heads_groupRow m row :
  heads (groupRow m row)
  = if mapHas (Email.id (rowEmail row)) m then heads m
    else (heads m ++ [(Email.id (rowEmail row), rowEmail row)])%list.
Proof.
  unfold groupRow. cbv zeta. rewrite heads_mapModify.
  destruct (mapHas _ m) eqn:E; simpl; [reflexivity|].
  rewrite (mapSet_absent _ _ _ E). unfold heads. now rewrite map_app.
Qed.

Lemma heads_fst m : map fst (heads m) = map fst m.
Proof. unfold heads. rewrite map_map. reflexivity. Qed.

(** The loop appends, in row order, the rows that open a new key. *)
Lemma heads_fold_groupRow rows m :
  exists opened,
    Subsequence opened rows
    /\ heads (fold_left groupRow rows m)
       = (heads m
          ++ map (fun r => (Email.id (rowEmail r), rowEmail r)) opened)%list.
Proof.
  revert m. induction rows as [|row rows IH]; intros m; simpl.
  - exists []. split; [constructor | now rewrite app_nil_r].
  - destruct (IH (groupRow m row)) as (opened & Hsub & Heq).
    rewrite heads_groupRow in Heq.
    destruct (mapHas _ m).
    + exists opened. split; [now constructor | exact Heq].
    + exists (row :: opened). split; [now constructor|].
      rewrite Heq, <- app_assoc. reflexivity.
Qed.

Lemma keys_groupRow_NoDup m row :
  NoDup (map fst m) -> NoDup (map fst (groupRow m row)).
Proof.
  intros H. rewrite <- heads_fst, heads_groupRow.
  destruct (mapHas _ m) eqn:E; rewrite ?heads_fst; [exact H|].
  rewrite map_app, heads_fst. simpl.
  apply NoDup_app; [exact H | repeat constructor; intros [] |].
  intros k Hk [<- | []].
  apply mapHas_In in Hk. congruence.
Qed.

Lemma keys_fold_groupRow_NoDup rows m :
  NoDup (map fst m) -> NoDup (map fst (fold_left groupRow rows m)).
Proof.
  revert m. induction rows as [|row rows IH]; intros m H; simpl; [exact H|].
  apply IH. now apply keys_groupRow_NoDup.
Qed.

Lemma keys_groupRow_grow m row k :
  In k (map fst m) \/ k = Email.id (rowEmail row) ->
  In k (map fst (groupRow m row)).
Proof.
  rewrite <- (heads_fst (groupRow m row)), heads_groupRow.
  destruct (mapHas _ m) eqn:E; rewrite ?map_app, !heads_fst.
  - intros [H | ->]; [exact H | now apply mapHas_In].
  - intros [H | ->]; apply in_or_app; [now left | right; now left].
Qed.

Lemma keys_fold_groupRow_grow rows m k :
  In k (map fst m) \/ In k (map (fun r => Email.id (rowEmail r)) rows) ->
  In k (map fst (fold_left groupRow rows m)).
Proof.
  revert m. induction rows as [|row rows IH]; intros m; simpl.
  - intros [H | []]. exact H.
  - intros [H | [H | H]]; apply IH.
    + left. apply keys_groupRow_grow. now left.
    + left. apply keys_groupRow_grow. now right.
    + now right.
Qed.

Lemma groupRow_entries d m row :
  rowFrom d row -> Forall (entryFrom d) m ->
  Forall (entryFrom d) (groupRow m row).
Proof.
  intros Hrow Hm. unfold groupRow. cbv zeta.
  set (key := Email.id (rowEmail row)).
  assert (Hm1 : Forall (entryFrom d)
                  (if negb (mapHas key m)
                   then mapSet key (mkEmailWithLabels (rowEmail row) []) m
                   else m)).
  { destruct (mapHas key m) eqn:E; simpl; [exact Hm|].
    rewrite (mapSet_absent _ _ _ E). apply Forall_app. split; [exact Hm|].
    repeat constructor. }
  unfold mapModify. apply Forall_map.
  eapply Forall_impl; [|exact Hm1].
  intros [k v] Hkv. simpl. destruct (k =? key) eqn:E; [|exact Hkv].
  apply String.eqb_eq in E. subst k.
  unfold entryFrom in *. simpl in *. unfold pushRowLabel.
  unfold rowFrom in Hrow.
  destruct (rowEmailLabel row) as [el|]; [|exact Hkv].
  destruct (rowLabel row) as [l|]; [|exact Hkv].
  simpl. apply Forall_app. split; [exact Hkv|]. now constructor.
Qed.

Lemma fold_groupRow_entries d rows m :
  (forall r, In r rows -> rowFrom d r) -> Forall (entryFrom d) m ->
  Forall (entryFrom d) (fold_left groupRow rows m).
Proof.
  revert m. induction rows as [|row rows IH]; intros m Hrows Hm; simpl;
    [exact Hm|].
  apply IH.
  - intros r Hr. apply Hrows. now right.
  - apply groupRow_entries; [apply Hrows; now left | exact Hm].
Qed.

(** What the grouping loop makes of the rows of a join, from an empty map. *)
Lemma grouped_rows d rows :
  (forall r, In r rows -> rowFrom d r) ->
  exists opened,
    Subsequence opened rows
    /\ map emailColumns (mapValues (fold_left groupRow rows []))
       = map rowEmail opened
    /\ NoDup (map (fun e => Email.id (emailColumns e))
                  (mapValues (fold_left groupRow rows [])))
    /\ (forall k, In k (map (fun r => Email.id (rowEmail r)) rows) ->
                  In k (map (fun e => Email.id (emailColumns e))
                            (mapValues (fold_left groupRow rows []))))
    /\ Forall (fun e => Forall (assignedIn d (Email.id (emailColumns e)))
                               (labels e))
              (mapValues (fold_left groupRow rows [])).
Proof.
  intros Hrows.
  destruct (heads_fold_groupRow rows []) as (opened & Hsub & Hheads).
  simpl in Hheads.
  set (m := fold_left groupRow rows []) in *.
  assert (Hcols : map emailColumns (mapValues m) = map rowEmail opened).
  { unfold mapValues. rewrite map_map.
    transitivity (map snd (heads m)).
    - unfold heads. now rewrite map_map.
    - rewrite Hheads, map_map. reflexivity. }
  assert (Hkeys : map fst m
                  = map (fun e => Email.id (emailColumns e)) (mapValues m)).
  { rewrite <- heads_fst, Hheads, map_map. simpl.
    rewrite <- (map_map emailColumns Email.id), Hcols, map_map. reflexivity. }
  exists opened. split; [exact Hsub|]. split; [exact Hcols|].
  split; [|split].
  - rewrite <- Hkeys. apply keys_fold_groupRow_NoDup. constructor.
  - intros k Hk. rewrite <- Hkeys. apply keys_fold_groupRow_grow. now right.
  - assert (Hentries : Forall (entryFrom d) m).
    { apply fold_groupRow_entries; [exact Hrows | constructor]. }
    assert (Hpairs : Forall (fun kv => fst kv = Email.id (emailColumns (snd kv))) m).
    { apply Forall_forall. intros kv Hkv.
      assert (Hin : In (fst kv, emailColumns (snd kv)) (heads m)).
      { unfold heads. apply in_map_iff. now exists kv. }
      rewrite Hheads in Hin. apply in_map_iff in Hin as (r & Heq & _).
      injection Heq as <- <-. reflexivity. }
    unfold mapValues. apply Forall_map.
    rewrite Forall_forall in *. intros kv Hkv.
    specialize (Hentries kv Hkv). specialize (Hpairs kv Hkv).
    unfold entryFrom in Hentries. now rewrite <- Hpairs.
Qed.

Lemma getEmailsByUserId_unfold userId w :
  getEmailsByUserId userId w
  = (Resolved (mapValues (fold_left groupRow (userRows (db w) userId) [])), w).
Proof. reflexivity. Qed.

Lemma userRows_In d userId r :
  In r (userRows d userId) ->
  In (rowEmail r) (emails d) /\ ownedBy d userId (rowEmail r) /\ rowFrom d r.
Proof.
  unfold userRows. rewrite orderBy_In. intros H.
  apply selectEmailRows_In in H as (He & (a & Ha & Hjoin & Hu) & Hrow).
  apply String.eqb_eq in Hu. split; [exact He|]. split; [|exact Hrow].
  now exists a.
Qed.

Lemma StronglySorted_weaken {A} (R R' : A -> A -> Prop) (l : list A) :
  (forall a b, R a b -> R' a b) -> StronglySorted R l -> StronglySorted R' l.
Proof.
  intros Himp. induction 1 as [|x l Hs IH Hall]; constructor; [exact IH|].
  eapply Forall_impl; [|exact Hall]. intros y. apply Himp.
Qed.

Lemma userRows_sorted d userId :
  StronglySorted (fun r1 r2 => notOlder (rowEmail r1) (rowEmail r2))
                 (userRows d userId).
Proof.
  unfold userRows.
  eapply StronglySorted_weaken; [|apply orderBy_sorted].
  - intros r1 r2 H. unfold notOlder. now apply Z.leb_le.
  - intros r1 r2. rewrite !Z.leb_le. lia.
  - intros r1 r2 r3. rewrite !Z.leb_le. lia.
Qed.

(** ** What [getEmailsByUserId] returns *)

Lemma listed_from d userId e :
  In e (mapValues (fold_left groupRow (userRows d userId) [])) ->
  In (emailColumns e) (emails d)
  /\ ownedBy d userId (emailColumns e)
  /\ Forall (assignedIn d (Email.id (emailColumns e))) (labels e).
Proof.
  intros He.
  destruct (grouped_rows d (userRows d userId))
    as (opened & Hsub & Hcols & _ & _ & Hlabels).
  { intros r Hr. now apply userRows_In in Hr. }
  assert (Hrow : exists r, In r (userRows d userId)
                           /\ rowEmail r = emailColumns e).
  { assert (Hin : In (emailColumns e) (map rowEmail opened)).
    { rewrite <- Hcols. now apply in_map. }
    apply in_map_iff in Hin as (r & Heq & Hr). exists r. split; [|exact Heq].
    eapply Subsequence_In; eassumption. }
  destruct Hrow as (r & Hr & Heq).
  apply userRows_In in Hr as (Hstored & Howned & _). rewrite Heq in *.
  split; [exact Hstored|]. split; [exact Howned|].
  rewrite Forall_forall in Hlabels. now apply Hlabels.
Qed.

(** X1.  [getEmailsByUserId] returns stored emails of the user only, and
    each comes with associations of its own: every label attached to a
    returned email is a row of [emailLabels] for that very email, joined
    with the label row it references. *)
Theorem getEmailsByUserId_scoped (userId : string) (w : World) :
  exists result,
    getEmailsByUserId userId w = (Resolved result, w)
    /\ forall e, In e result ->
         In (emailColumns e) (emails (db w))
         /\ ownedBy (db w) userId (emailColumns e)
         /\ forall al, In al (labels e) ->
              assignedIn (db w) (Email.id (emailColumns e)) al.
Proof.
  rewrite getEmailsByUserId_unfold. eexists. split; [reflexivity|].
  intros e He. apply listed_from in He as (Hstored & Howned & Hlabels).
  split; [exact Hstored|]. split; [exact Howned|].
  now rewrite Forall_forall in Hlabels.
Qed.

(** X2.  No email is listed twice: the identifiers of the emails that
    [getEmailsByUserId] returns are pairwise distinct, however many
    associations each email has. *)
Theorem getEmailsByUserId_distinct (userId : string) (w : World) :
  exists result,
    getEmailsByUserId userId w = (Resolved result, w)
    /\ NoDup (map (fun e => Email.id (emailColumns e)) result).
Proof.
  rewrite getEmailsByUserId_unfold. eexists. split; [reflexivity|].
  destruct (grouped_rows (db w) (userRows (db w) userId))
    as (_ & _ & _ & Hnodup & _); [|exact Hnodup].
  intros r Hr. now apply userRows_In in Hr.
Qed.

(** X3.  [getEmailsByUserId] lists the emails newest first: no email is
    followed, anywhere later in the list, by one received after it. *)
Theorem getEmailsByUserId_newest_first (userId : string) (w : World) :
  exists result,
    getEmailsByUserId userId w = (Resolved result, w)
    /\ StronglySorted notOlder (map emailColumns result).
Proof.
  rewrite getEmailsByUserId_unfold. eexists. split; [reflexivity|].
  destruct (grouped_rows (db w) (userRows (db w) userId))
    as (opened & Hsub & Hcols & _).
  { intros r Hr. now apply userRows_In in Hr. }
  rewrite Hcols. apply StronglySorted_map.
  eapply Subsequence_StronglySorted; [exact Hsub | apply userRows_sorted].
Qed.

(** X4.  [getEmailsByUserId] misses nothing: every stored email that sits
    in an account of the user is listed, under its identifier. *)
Theorem getEmailsByUserId_complete (userId : string) (w : World) (e : Email.t) :
  In e (emails (db w)) -> ownedBy (db w) userId e ->
  exists result listed,
    getEmailsByUserId userId w = (Resolved result, w)
    /\ In listed result
    /\ Email.id (emailColumns listed) = Email.id e.
Proof.
  intros He (a & Ha & Hjoin & Hu).
  rewrite getEmailsByUserId_unfold. eexists.
  destruct (grouped_rows (db w) (userRows (db w) userId))
    as (_ & _ & _ & _ & Hkeys & _).
  { intros r Hr. now apply userRows_In in Hr. }
  destruct (selectEmailRows_complete (db w)
              (fun _ a => EmailAccount.userId a =? userId) e a)
    as (r & Hr & Heq); auto.
  { now apply String.eqb_eq. }
  assert (Hk : In (Email.id e)
                  (map (fun e => Email.id (emailColumns e))
                       (mapValues (fold_left groupRow (userRows (db w) userId) [])))).
  { apply Hkeys. apply in_map_iff. exists r. rewrite Heq. split; [reflexivity|].
    unfold userRows. now apply orderBy_In. }
  apply in_map_iff in Hk as (listed & Hid & Hlisted).
  exists listed. split; [reflexivity|]. split; assumption.
Qed.

Lemma getEmailsByUserId_complete_demo :
  exists result listed,
    getEmailsByUserId "U1" demoWorld = (Resolved result, demoWorld)
    /\ In listed result
    /\ Email.id (emailColumns listed) = Email.id demoE2.
Proof.
  apply (getEmailsByUserId_complete "U1" demoWorld demoE2).
  - simpl. right. now left.
  - exists demoAccount. simpl. repeat split. now left.
Defined.

(** ** Looking one email up *)

Lemma fold_pushRowLabel d k rows e0 :
  (forall row, In row rows -> rowFrom d row /\ Email.id (rowEmail row) = k) ->
  Forall (assignedIn d k) (labels e0) ->
  emailColumns (fold_left (fun e row => pushRowLabel row e) rows e0)
  = emailColumns e0
  /\ Forall (assignedIn d k)
            (labels (fold_left (fun e row => pushRowLabel row e) rows e0)).
Proof.
  revert e0. induction rows as [|row rows IH]; intros e0 Hrows H0; simpl.
  - split; [reflexivity | exact H0].
  - destruct (IH (pushRowLabel row e0)) as [Hc Hl].
    + intros r Hr. apply Hrows. now right.
    + destruct (Hrows row (or_introl eq_refl)) as [Hrow Hk].
      unfold pushRowLabel, rowFrom in *.
      destruct (rowEmailLabel row) as [el|]; [|exact H0].
      destruct (rowLabel row) as [l|]; [|exact H0].
      simpl. apply Forall_app. split; [exact H0|].
      constructor; [|constructor]. now rewrite <- Hk.
    + split; [|exact Hl]. now rewrite Hc, pushRowLabel_columns.
Qed.

Lemma ownsEmail_rows d userId emailId :
  ownsEmail d userId emailId = true
  <-> selectEmailRows d
        (fun e a => (Email.id e =? emailId) && (EmailAccount.userId a =? userId))
      <> [].
Proof.
  unfold ownsEmail. rewrite existsb_exists. split.
  - intros (e & He & H). apply andb_true_iff in H as [Hid H].
    apply existsb_exists in H as (a & Ha & H).
    apply andb_true_iff in H as [Hjoin Hu]. apply String.eqb_eq in Hjoin.
    destruct (selectEmailRows_complete d
                (fun e a => (Email.id e =? emailId)
                            && (EmailAccount.userId a =? userId)) e a)
      as (r & Hr & _); auto.
    { now rewrite Hid, Hu. }
    intros Hnil. now rewrite Hnil in Hr.
  - intros Hne.
    destruct (selectEmailRows d _) as [|r rest] eqn:E; [congruence|].
    assert (Hr : In r (selectEmailRows d
                         (fun e a => (Email.id e =? emailId)
                                     && (EmailAccount.userId a =? userId))))
      by (rewrite E; now left).
    apply selectEmailRows_In in Hr as (He & (a & Ha & Hjoin & Hc) & _).
    apply andb_true_iff in Hc as [Hid Hu].
    exists (rowEmail r). split; [exact He|]. rewrite Hid. simpl.
    apply existsb_exists. exists a. split; [exact Ha|].
    now rewrite Hjoin, String.eqb_refl, Hu.
Qed.

Lemma getEmailById_found d userId emailId w :
  db w = d -> ownsEmail d userId emailId = true ->
  exists r, getEmailById emailId userId w = (Resolved (Some r), w).
Proof.
  intros <- H. apply ownsEmail_rows in H.
  unfold getEmailById, query.
  destruct (selectEmailRows (db w) _) as [|r rest]; [congruence|].
  eexists. reflexivity.
Qed.

Lemma getEmailById_missing d userId emailId w :
  db w = d -> ownsEmail d userId emailId = false ->
  getEmailById emailId userId w = (Resolved None, w).
Proof.
  intros <- H. unfold getEmailById, query.
  destruct (selectEmailRows (db w) _) as [|r rest] eqn:E; [reflexivity|].
  assert (Hown : ownsEmail (db w) userId emailId = true).
  { apply ownsEmail_rows. rewrite E. discriminate. }
  congruence.
Qed.

Lemma getEmailById_returns emailId userId w r w' :
  getEmailById emailId userId w = (Resolved (Some r), w') ->
  w' = w
  /\ In (emailColumns r) (emails (db w))
  /\ Email.id (emailColumns r) = emailId
  /\ ownedBy (db w) userId (emailColumns r)
  /\ forall al, In al (labels r) -> assignedIn (db w) emailId al.
Proof.
  intros H. unfold getEmailById, query in H.
  destruct (selectEmailRows (db w) _) as [|first rest] eqn:E;
    [discriminate|].
  injection H as <- <-.
  assert (Hrows : forall row, In row (first :: rest) ->
            In (rowEmail row) (emails (db w))
            /\ ownedBy (db w) userId (rowEmail row)
            /\ rowFrom (db w) row /\ Email.id (rowEmail row) = emailId).
  { intros row Hrow. rewrite <- E in Hrow.
    apply selectEmailRows_In in Hrow as (He & (a & Ha & Hjoin & Hc) & Hfrom).
    apply andb_true_iff in Hc as [Hid Hu].
    apply String.eqb_eq in Hid, Hu.
    split; [exact He|]. split; [now exists a|]. now split. }
  destruct (fold_pushRowLabel (db w) emailId (first :: rest)
              (mkEmailWithLabels (rowEmail first) [])) as [Hc Hl].
  { intros row Hrow. now apply Hrows in Hrow. }
  { constructor. }
  destruct (Hrows first (or_introl eq_refl)) as (He & Ho & _ & Hid).
  cbn [fold_left] in Hc, Hl.
  rewrite Hc. simpl. split; [reflexivity|].
  split; [exact He|]. split; [exact Hid|]. split; [exact Ho|].
  now rewrite Forall_forall in Hl.
Qed.

(** X5.  [getEmailById] is scoped to the requester.  An email it returns
    is a stored email with the requested identifier, in an account of the
    requester, and carries associations of that email only.  It returns an
    email exactly when the requester has one with that identifier; for an
    identifier that exists only in other users' accounts it returns
    nothing. *)
Theorem getEmailById_scoped (emailId userId : string) (w : World) :
  (forall r w',
      getEmailById emailId userId w = (Resolved (Some r), w') ->
      w' = w
      /\ In (emailColumns r) (emails (db w))
      /\ Email.id (emailColumns r) = emailId
      /\ ownedBy (db w) userId (emailColumns r)
      /\ forall al, In al (labels r) -> assignedIn (db w) emailId al)
  /\ (ownsEmail (db w) userId emailId = true ->
      exists r, getEmailById emailId userId w = (Resolved (Some r), w))
  /\ (ownsEmail (db w) userId emailId = false ->
      getEmailById emailId userId w = (Resolved None, w)).
Proof.
  split; [|split].
  - intros r w'. apply getEmailById_returns.
  - now apply getEmailById_found.
  - now apply getEmailById_missing.
Qed.

(** An email of [U2], for the scoping examples. *)
Lemma getEmailById_scoped_demo :
  getEmailById "E1" "U2" demoWorld = (Resolved None, demoWorld)
  /\ exists r, getEmailById "E1" "U1" demoWorld = (Resolved (Some r), demoWorld).
Proof.
  destruct (getEmailById_scoped "E1" "U2" demoWorld) as (_ & _ & Hnone).
  destruct (getEmailById_scoped "E1" "U1" demoWorld) as (_ & Hsome & _).
  split; [apply Hnone | apply Hsome]; reflexivity.
Defined.

(** ** Assigning and removing labels *)

Lemma ownsEmail_stored d userId emailId :
  ownsEmail d userId emailId = true ->
  existsb (fun e => Email.id e =? emailId) (emails d) = true.
Proof.
  unfold ownsEmail. rewrite !existsb_exists.
  intros (e & He & H). apply andb_true_iff in H as [Hid _]. now exists e.
Qed.

Lemma ownsLabel_stored d userId labelId :
  ownsLabel d userId labelId = true ->
  existsb (fun l => Label.id l =? labelId) (labelsTable d) = true.
Proof.
  unfold ownsLabel. rewrite !existsb_exists.
  intros (l & Hl & H). apply andb_true_iff in H as [Hid _]. now exists l.
Qed.

Lemma hd_error_filter_existsb {A} (f : A -> bool) (l : list A) :
  hd_error (filter f l) = None <-> existsb f l = false.
Proof.
  induction l as [|x l IH]; simpl; [tauto|].
  destruct (f x); simpl; [split; discriminate | exact IH].
Qed.

Lemma getLabelById_found labelId userId w :
  ownsLabel (db w) userId labelId = true ->
  exists l, getLabelById labelId userId w = (Resolved (Some l), w).
Proof.
  intros H. unfold getLabelById, query.
  destruct (hd_error _) as [l|] eqn:E; [now exists l|].
  apply hd_error_filter_existsb in E. unfold ownsLabel in H. congruence.
Qed.

Lemma getLabelById_missing labelId userId w :
  ownsLabel (db w) userId labelId = false ->
  getLabelById labelId userId w = (Resolved None, w).
Proof.
  intros H. unfold getLabelById, query. f_equal. f_equal.
  now apply hd_error_filter_existsb.
Qed.

Lemma addLabelToEmail_run data userId w :
  ownsEmail (db w) userId (InsertEmailLabel.emailId data) = true ->
  ownsLabel (db w) userId (InsertEmailLabel.labelId data) = true ->
  addLabelToEmail data userId w
  = (Resolved tt,
     mkWorld
       (withEmailLabels (db w)
          (emailLabels (db w)
           ++ [EmailLabel.mk
                 (gen_random_uuid (map EmailLabel.id (emailLabels (db w))))
                 (InsertEmailLabel.emailId data)
                 (InsertEmailLabel.labelId data)
                 (InsertEmailLabel.isAuto data)])%list)
       (clock w) (openai w) (sent w)).
Proof.
  intros He Hl.
  destruct (getEmailById_found _ _ _ w eq_refl He) as [r Hr].
  destruct (getLabelById_found _ _ w Hl) as [l Hlab].
  unfold addLabelToEmail, bind. rewrite Hr, Hlab.
  unfold insertEmailLabelOnConflictDoNothing. cbv zeta.
  cbn [EmailLabel.emailId EmailLabel.labelId EmailLabel.id].
  rewrite (ownsEmail_stored _ _ _ He), (ownsLabel_stored _ _ _ Hl).
  cbn [negb orb].
  match goal with
  | |- (if existsb ?f ?rows then _ else _) = _ =>
      assert (Hfresh : existsb f rows = false)
  end.
  { apply not_true_is_false. intros Hex.
    apply existsb_exists in Hex as (x & Hx & Heq). apply String.eqb_eq in Heq.
    apply (gen_random_uuid_fresh (map EmailLabel.id (emailLabels (db w)))).
    rewrite <- Heq. now apply in_map. }
  rewrite Hfresh. reflexivity.
Qed.

Lemma addLabelToEmail_refused data userId w :
  ownsEmail (db w) userId (InsertEmailLabel.emailId data) = false
  \/ ownsLabel (db w) userId (InsertEmailLabel.labelId data) = false ->
  addLabelToEmail data userId w = (Threw "Email or label not found", w).
Proof.
  intros Hmissing. unfold addLabelToEmail, bind.
  destruct (ownsEmail (db w) userId (InsertEmailLabel.emailId data)) eqn:He.
  - destruct Hmissing as [Hm | Hm]; [discriminate|].
    destruct (getEmailById_found _ _ _ w eq_refl He) as [r Hr].
    rewrite Hr, (getLabelById_missing _ _ _ Hm). reflexivity.
  - rewrite (getEmailById_missing _ _ _ w eq_refl He).
    destruct (ownsLabel (db w) userId (InsertEmailLabel.labelId data)) eqn:Hl.
    + destruct (getLabelById_found _ _ w Hl) as [l Hlab].
      rewrite Hlab. reflexivity.
    + rewrite (getLabelById_missing _ _ _ Hl). reflexivity.
Qed.

(** X6.  [addLabelToEmail] succeeds exactly when the acting user owns both
    the email and the label.  Then it appends one row, carrying the data it
    was given, and changes nothing else; the foreign and primary keys never
    get in the way.  Otherwise it throws "Email or label not found" and the
    world is what it was: no association across users is ever written. *)
Theorem addLabelToEmail_guarded (data : InsertEmailLabel.t) (userId : string)
    (w : World) :
  (ownsEmail (db w) userId (InsertEmailLabel.emailId data) = true ->
   ownsLabel (db w) userId (InsertEmailLabel.labelId data) = true ->
   addLabelToEmail data userId w
   = (Resolved tt,
      mkWorld
        (withEmailLabels (db w)
           (emailLabels (db w)
            ++ [EmailLabel.mk
                  (gen_random_uuid (map EmailLabel.id (emailLabels (db w))))
                  (InsertEmailLabel.emailId data)
                  (InsertEmailLabel.labelId data)
                  (InsertEmailLabel.isAuto data)])%list)
        (clock w) (openai w) (sent w)))
  /\ (ownsEmail (db w) userId (InsertEmailLabel.emailId data) = false
      \/ ownsLabel (db w) userId (InsertEmailLabel.labelId data) = false ->
      addLabelToEmail data userId w = (Threw "Email or label not found", w)).
Proof.
  split; [apply addLabelToEmail_run | apply addLabelToEmail_refused].
Qed.

(** [U2] tries to put [U1]'s label on [U1]'s email. *)
Lemma addLabelToEmail_guarded_demo :
  addLabelToEmail (InsertEmailLabel.mk "E2" "L1" false) "U2" demoWorld
  = (Threw "Email or label not found", demoWorld).
Proof.
  destruct (addLabelToEmail_guarded
              (InsertEmailLabel.mk "E2" "L1" false) "U2" demoWorld) as [_ H].
  apply H. left. reflexivity.
Defined.

Lemma removeLabelFromEmail_run emailId labelId userId w :
  ownsEmail (db w) userId emailId = true ->
  ownsLabel (db w) userId labelId = true ->
  removeLabelFromEmail emailId labelId userId w
  = (Resolved tt,
     mkWorld
       (withEmailLabels (db w)
          (filter (fun r => negb ((EmailLabel.emailId r =? emailId)
                                  && (EmailLabel.labelId r =? labelId)))
                  (emailLabels (db w))))
       (clock w) (openai w) (sent w)).
Proof.
  intros He Hl.
  destruct (getEmailById_found _ _ _ w eq_refl He) as [r Hr].
  destruct (getLabelById_found _ _ w Hl) as [l Hlab].
  unfold removeLabelFromEmail, bind. rewrite Hr, Hlab. reflexivity.
Qed.

(** X7.  [removeLabelFromEmail], for an email and a label the user owns,
    removes every association of the pair, duplicates included, and
    nothing else: the other rows of [emailLabels] and all other tables stay.
    For an email or a label the user does not own it throws "Email or label
    not found" and changes nothing. *)
Theorem removeLabelFromEmail_guarded (emailId labelId userId : string)
    (w : World) :
  (ownsEmail (db w) userId emailId = true ->
   ownsLabel (db w) userId labelId = true ->
   exists w',
     removeLabelFromEmail emailId labelId userId w = (Resolved tt, w')
     /\ associations emailId labelId (db w') = []
     /\ (forall r, In r (emailLabels (db w'))
                   <-> In r (emailLabels (db w))
                       /\ ~ (EmailLabel.emailId r = emailId
                             /\ EmailLabel.labelId r = labelId))
     /\ db w' = withEmailLabels (db w) (emailLabels (db w')))
  /\ (ownsEmail (db w) userId emailId = false
      \/ ownsLabel (db w) userId labelId = false ->
      removeLabelFromEmail emailId labelId userId w
      = (Threw "Email or label not found", w)).
Proof.
  split.
  - intros He Hl. eexists. split; [now apply removeLabelFromEmail_run|].
    cbn [db]. unfold withEmailLabels at 1 2. cbn [emailLabels].
    split; [|split; [|reflexivity]].
    + unfold associations. cbn [emailLabels]. apply filter_none.
      intros r Hr. apply filter_In in Hr as [_ Hr].
      now apply negb_true_iff in Hr.
    + intros r. rewrite filter_In, negb_true_iff, andb_false_iff.
      rewrite !String.eqb_neq. split.
      * intros [Hin Hdiff]. split; [exact Hin|].
        intros [H1 H2]. destruct Hdiff as [Hd | Hd]; now apply Hd.
      * intros [Hin Hdiff]. split; [exact Hin|].
        destruct (String.eqb_spec (EmailLabel.emailId r) emailId);
          [right | now left].
        intros Heq. apply Hdiff. now split.
  - intros Hmissing. unfold removeLabelFromEmail, bind.
    destruct (ownsEmail (db w) userId emailId) eqn:He.
    + destruct Hmissing as [Hm | Hm]; [discriminate|].
      destruct (getEmailById_found _ _ _ w eq_refl He) as [r Hr].
      rewrite Hr, (getLabelById_missing _ _ _ Hm). reflexivity.
    + rewrite (getEmailById_missing _ _ _ w eq_refl He).
      destruct (ownsLabel (db w) userId labelId) eqn:Hl.
      * destruct (getLabelById_found _ _ w Hl) as [l Hlab].
        rewrite Hlab. reflexivity.
      * rewrite (getLabelById_missing _ _ _ Hl). reflexivity.
Qed.

Lemma removeLabelFromEmail_guarded_demo :
  exists w',
    removeLabelFromEmail "E1" "L1" "U1" demoWorld = (Resolved tt, w')
    /\ associations "E1" "L1" (db w') = []
    /\ (forall r, In r (emailLabels (db w'))
                  <-> In r (emailLabels (db demoWorld))
                      /\ ~ (EmailLabel.emailId r = "E1"
                            /\ EmailLabel.labelId r = "L1"))
    /\ db w' = withEmailLabels (db demoWorld) (emailLabels (db w')).
Proof.
  destruct (removeLabelFromEmail_guarded "E1" "L1" "U1" demoWorld) as [H _].
  apply H; reflexivity.
Defined.

Lemma filter_negb_all {A} (f : A -> bool) (l : list A) :
  filter f l = [] -> filter (fun x => negb (f x)) l = l.
Proof.
  induction l as [|x l IH]; simpl; [reflexivity|].
  destruct (f x); [discriminate|]. intros H. simpl. f_equal. now apply IH.
Qed.

(** X8.  Assigning a label and then removing it is a round trip: when the
    pair had no association before, [addLabelToEmail] followed by
    [removeLabelFromEmail] leaves the world exactly as it was. *)
Theorem addLabelToEmail_then_remove (data : InsertEmailLabel.t)
    (userId : string) (w : World) :
  ownsEmail (db w) userId (InsertEmailLabel.emailId data) = true ->
  ownsLabel (db w) userId (InsertEmailLabel.labelId data) = true ->
  associations (InsertEmailLabel.emailId data) (InsertEmailLabel.labelId data)
               (db w) = [] ->
  (addLabelToEmail data userId ;;;
   removeLabelFromEmail (InsertEmailLabel.emailId data)
                        (InsertEmailLabel.labelId data) userId) w
  = (Resolved tt, w).
Proof.
  intros He Hl Hnone.
  unfold bind. rewrite (addLabelToEmail_run data userId w He Hl).
  rewrite removeLabelFromEmail_run; [| exact He | exact Hl].
  cbn [db clock openai sent]. unfold withEmailLabels. cbn [emailLabels
    emailAccounts emails labelsTable workflows workflowExecutions].
  rewrite filter_app. simpl. rewrite !String.eqb_refl. simpl.
  rewrite app_nil_r. unfold associations in Hnone.
  rewrite (filter_negb_all _ _ Hnone).
  destruct w as [[] ? ? ?]. reflexivity.
Qed.

Lemma addLabelToEmail_then_remove_demo :
  (addLabelToEmail (InsertEmailLabel.mk "E2" "L1" true) "U1" ;;;
   removeLabelFromEmail "E2" "L1" "U1") demoWorld
  = (Resolved tt, demoWorld).
Proof.
  apply (addLabelToEmail_then_remove
           (InsertEmailLabel.mk "E2" "L1" true) "U1" demoWorld);
    reflexivity.
Defined.

(** ** Marking an email as read *)

Lemma existsb_map {A B} (f : B -> bool) (g : A -> B) (l : list A) :
  existsb f (map g l) = existsb (fun x => f (g x)) l.
Proof. induction l as [|x l IH]; simpl; [reflexivity | now rewrite IH]. Qed.

Lemma existsb_pointwise {A} (f g : A -> bool) (l : list A) :
  (forall x, f x = g x) -> existsb f l = existsb g l.
Proof.
  intros H. induction l as [|x l IH]; simpl; [reflexivity|].
  now rewrite H, IH.
Qed.

Lemma ownsEmail_withEmails d userId emailId g :
  (forall e, Email.id (g e) = Email.id e
             /\ Email.emailAccountId (g e) = Email.emailAccountId e) ->
  ownsEmail (withEmails d (map g (emails d))) userId emailId
  = ownsEmail d userId emailId.
Proof.
  intros Hg. unfold ownsEmail, withEmails. cbn [emails emailAccounts].
  rewrite existsb_map. apply existsb_pointwise. intros e.
  destruct (Hg e) as [-> ->]. reflexivity.
Qed.

(** X9.  [markEmailAsRead] refuses an email the user does not own: it
    throws "Email not found" and changes nothing.  For an email of the user
    it resolves, and afterwards a lookup of that email shows the requested
    flag; emails with another identifier are left as they were, and so is
    every other table. *)
Theorem markEmailAsRead_guarded (emailId userId : string) (isRead : bool)
    (w : World) :
  (ownsEmail (db w) userId emailId = false ->
   markEmailAsRead emailId userId isRead w = (Threw "Email not found", w))
  /\ (ownsEmail (db w) userId emailId = true ->
      exists w' r',
        markEmailAsRead emailId userId isRead w = (Resolved tt, w')
        /\ getEmailById emailId userId w' = (Resolved (Some r'), w')
        /\ Email.isRead (emailColumns r') = isRead
        /\ (forall e, Email.id e <> emailId ->
                      (In e (emails (db w')) <-> In e (emails (db w))))
        /\ db w' = withEmails (db w) (emails (db w'))).
Proof.
  split.
  - intros He. unfold markEmailAsRead, bind.
    now rewrite (getEmailById_missing _ _ _ w eq_refl He).
  - intros He.
    destruct (getEmailById_found _ _ _ w eq_refl He) as [r Hr].
    set (w' := mkWorld
                 (withEmails (db w)
                    (map (fun e => if Email.id e =? emailId
                                   then setIsRead isRead e else e)
                         (emails (db w))))
                 (clock w) (openai w) (sent w)).
    assert (Hrun : markEmailAsRead emailId userId isRead w = (Resolved tt, w')).
    { unfold markEmailAsRead, bind. rewrite Hr. reflexivity. }
    assert (He' : ownsEmail (db w') userId emailId = true).
    { unfold w'. cbn [db]. rewrite ownsEmail_withEmails; [exact He|].
      intros e. destruct (Email.id e =? emailId); split; reflexivity. }
    destruct (getEmailById_found _ _ _ w' eq_refl He') as [r' Hr'].
    exists w', r'. split; [exact Hrun|]. split; [exact Hr'|].
    apply getEmailById_returns in Hr' as (_ & Hin & Hid & _).
    split; [|split; [|reflexivity]].
    + unfold w' in Hin. cbn [db withEmails emails] in Hin.
      apply in_map_iff in Hin as (e & Heq & _).
      destruct (Email.id e =? emailId) eqn:E.
      * rewrite <- Heq. reflexivity.
      * rewrite <- Heq in Hid. apply String.eqb_neq in E. contradiction.
    + intros e Hne. unfold w'. cbn [db withEmails emails].
      rewrite in_map_iff. split.
      * intros (e0 & Heq & Hin0).
        destruct (Email.id e0 =? emailId) eqn:E; [|now subst].
        apply String.eqb_eq in E. subst e. simpl in Hne. contradiction.
      * intros Hstored. exists e. split; [|exact Hstored].
        apply String.eqb_neq in Hne. now rewrite Hne.
Qed.

Lemma markEmailAsRead_guarded_demo :
  markEmailAsRead "E1" "U2" true demoWorld = (Threw "Email not found", demoWorld)
  /\ exists w' r',
       markEmailAsRead "E1" "U1" true demoWorld = (Resolved tt, w')
       /\ getEmailById "E1" "U1" w' = (Resolved (Some r'), w')
       /\ Email.isRead (emailColumns r') = true
       /\ (forall e, Email.id e <> "E1" ->
                     (In e (emails (db w')) <-> In e (emails (db demoWorld))))
       /\ db w' = withEmails (db demoWorld) (emails (db w')).
Proof.
  destruct (markEmailAsRead_guarded "E1" "U2" true demoWorld) as [Hno _].
  destruct (markEmailAsRead_guarded "E1" "U1" true demoWorld) as [_ Hyes].
  split; [apply Hno | apply Hyes]; reflexivity.
Defined.

(** ** Updating and deleting workflows *)

Lemma map_unhit {A} (hit : A -> bool) (f : A -> A) (l : list A) :
  existsb hit l = false -> map (fun x => if hit x then f x else x) l = l.
Proof.
  induction l as [|x l IH]; simpl; [reflexivity|].
  intros H. apply orb_false_iff in H as [Hx Hl].
  rewrite Hx. f_equal. now apply IH.
Qed.

Lemma filter_unhit {A} (hit : A -> bool) (l : list A) :
  existsb hit l = false -> filter (fun x => negb (hit x)) l = l.
Proof.
  induction l as [|x l IH]; simpl; [reflexivity|].
  intros H. apply orb_false_iff in H as [Hx Hl].
  rewrite Hx. simpl. f_equal. now apply IH.
Qed.

Lemma getWorkflowById_None_existsb workflowId userId w :
  getWorkflowById workflowId userId w = (Resolved None, w)
  <-> existsb (fun wf => (Workflow.id wf =? workflowId)
                         && (Workflow.userId wf =? userId))
              (workflows (db w)) = false.
Proof.
  unfold getWorkflowById, query. rewrite <- hd_error_filter_existsb. split.
  - intros H. now injection H.
  - intros ->. reflexivity.
Qed.

Lemma noValuesToSet_empty (data : WorkflowPatch.t) :
  noValuesToSet data = true <-> data = WorkflowPatch.empty.
Proof.
  split.
  - destruct data as [[] [] [] [] [] [] [] [] []]; simpl;
      intros H; try discriminate. reflexivity.
  - intros ->. reflexivity.
Qed.

Lemma violatesUserKey_accepted d newOwner owner touched :
  ownerAccepted d newOwner owner touched ->
  violatesUserKey d newOwner owner touched = false.
Proof.
  unfold ownerAccepted, violatesUserKey. intros H.
  destruct newOwner as [u|]; [|reflexivity].
  destruct (H u eq_refl) as [-> | [-> | (x & Hx & Hid)]].
  - rewrite String.eqb_refl. simpl. now rewrite andb_false_r.
  - reflexivity.
  - assert (Hex : existsb (fun y => User.id y =? u) (users d) = true).
    { apply existsb_exists. exists x. split; [exact Hx|].
      now apply String.eqb_eq. }
    rewrite Hex. simpl. now rewrite andb_false_r.
Qed.

Lemma updateWorkflow_run workflowId userId data w :
  data <> WorkflowPatch.empty ->
  ownerAccepted (db w) (WorkflowPatch.userId data) userId
    (existsb (fun wf => (Workflow.id wf =? workflowId)
                        && (Workflow.userId wf =? userId))
             (workflows (db w))) ->
  updateWorkflow workflowId userId data w
  = (Resolved
       (hd_error
          (map (applyPatch data)
               (filter (fun wf => (Workflow.id wf =? workflowId)
                                  && (Workflow.userId wf =? userId))
                       (workflows (db w))))),
     mkWorld
       (mkDatabase (users (db w)) (emailAccounts (db w)) (emails (db w))
          (labelsTable (db w)) (emailLabels (db w))
          (map (fun wf =>
                  if (Workflow.id wf =? workflowId)
                     && (Workflow.userId wf =? userId)
                  then applyPatch data wf else wf)
               (workflows (db w)))
          (workflowExecutions (db w)))
       (clock w) (openai w) (sent w)).
Proof.
  intros Hvalues Howner. unfold updateWorkflow. cbv zeta.
  destruct (noValuesToSet data) eqn:E.
  - apply noValuesToSet_empty in E. contradiction.
  - now rewrite (violatesUserKey_accepted _ _ _ _ Howner).
Qed.

(** X10.  [updateWorkflow] refuses a patch that carries no value ("No
    values to set"), and refuses to hand the user's workflow to an owner
    that is no stored user (the foreign key of [userId]); in both cases the
    world is unchanged.  Otherwise it resolves and touches only workflows
    that have the given identifier and belong to the given user: all other
    workflows, the number and the identifiers of the workflows, and all
    other tables stay as they are; and when the user has no such workflow,
    nothing is returned and the world is unchanged. *)
Theorem updateWorkflow_scoped (workflowId userId : string)
    (data : WorkflowPatch.t) (w : World) :
  updateWorkflow workflowId userId WorkflowPatch.empty w
  = (Threw "No values to set", w)
  /\ (forall newOwner wf,
        WorkflowPatch.userId data = Some newOwner ->
        newOwner <> userId ->
        (forall x, In x (users (db w)) -> User.id x <> newOwner) ->
        getWorkflowById workflowId userId w = (Resolved (Some wf), w) ->
        updateWorkflow workflowId userId data w
        = (Threw "violates foreign key constraint", w))
  /\ (data <> WorkflowPatch.empty ->
      ownerAccepted (db w) (WorkflowPatch.userId data) userId
        (existsb (fun wf => (Workflow.id wf =? workflowId)
                            && (Workflow.userId wf =? userId))
                 (workflows (db w))) ->
      exists returned w',
        updateWorkflow workflowId userId data w = (Resolved returned, w')
        /\ map Workflow.id (workflows (db w'))
           = map Workflow.id (workflows (db w))
        /\ (forall wf, In wf (workflows (db w)) ->
                       ~ (Workflow.id wf = workflowId
                          /\ Workflow.userId wf = userId) ->
                       In wf (workflows (db w')))
        /\ w' = mkWorld
                  (mkDatabase (users (db w)) (emailAccounts (db w))
                     (emails (db w)) (labelsTable (db w)) (emailLabels (db w))
                     (workflows (db w')) (workflowExecutions (db w)))
                  (clock w) (openai w) (sent w)
        /\ (getWorkflowById workflowId userId w = (Resolved None, w) ->
            returned = None /\ w' = w)).
Proof.
  split; [reflexivity|]. split.
  - intros newOwner wf Hpatch Hne Hnouser Hfound.
    unfold updateWorkflow. cbv zeta.
    destruct (noValuesToSet data) eqn:E.
    { apply noValuesToSet_empty in E. subst data. discriminate. }
    assert (Htouched : existsb (fun x => (Workflow.id x =? workflowId)
                                        && (Workflow.userId x =? userId))
                               (workflows (db w)) = true).
    { destruct (existsb _ (workflows (db w))) eqn:Hex; [reflexivity|].
      apply getWorkflowById_None_existsb in Hex. congruence. }
    unfold violatesUserKey. rewrite Hpatch, Htouched.
    apply String.eqb_neq in Hne. rewrite Hne.
    assert (Hmissing : existsb (fun x => User.id x =? newOwner)
                               (users (db w)) = false).
    { apply not_true_is_false. intros Hex.
      apply existsb_exists in Hex as (x & Hx & Heq).
      apply String.eqb_eq in Heq. now apply (Hnouser x). }
    rewrite Hmissing. reflexivity.
  - intros Hvalues Howner.
    rewrite (updateWorkflow_run _ _ _ _ Hvalues Howner).
    eexists. eexists. split; [reflexivity|]. cbn [db workflows].
    split; [|split; [|split; [reflexivity|]]].
    + rewrite map_map. apply map_ext. intros wf.
      destruct ((Workflow.id wf =? workflowId) && (Workflow.userId wf =? userId));
        reflexivity.
    + intros wf Hin Hnot. apply in_map_iff. exists wf. split; [|exact Hin].
      destruct ((Workflow.id wf =? workflowId) && (Workflow.userId wf =? userId))
        eqn:E; [|reflexivity].
      apply andb_true_iff in E as [E1 E2]. apply String.eqb_eq in E1, E2.
      exfalso. now apply Hnot.
    + intros Hnone. apply getWorkflowById_None_existsb in Hnone.
      rewrite (map_unhit _ _ _ Hnone).
      split.
      * apply hd_error_filter_existsb in Hnone.
        destruct (filter _ (workflows (db w))); [reflexivity | discriminate].
      * destruct w as [[] ? ? ?]. reflexivity.
Qed.

(** [U1] renames the first workflow; [U1] tries to give it to a user that
    does not exist. *)
Lemma updateWorkflow_scoped_demo :
  updateWorkflow "W1" "U1"
    (WorkflowPatch.mk (Some "U7") None None None None None None None None)
    demoWorld
  = (Threw "violates foreign key constraint", demoWorld)
  /\ exists returned w',
       updateWorkflow "W1" "U1"
         (WorkflowPatch.mk None (Some "Monthly digest") None None None None
                           None None None) demoWorld
       = (Resolved returned, w')
       /\ map Workflow.id (workflows (db w')) = ["W1"; "W2"; "W3"]
       /\ In demoW2 (workflows (db w'))
       /\ option_map Workflow.name returned = Some "Monthly digest".
Proof.
  destruct (updateWorkflow_scoped "W1" "U1"
              (WorkflowPatch.mk (Some "U7") None None None None None None None
                                None) demoWorld) as (_ & Hkey & _).
  destruct (updateWorkflow_scoped "W1" "U1"
              (WorkflowPatch.mk None (Some "Monthly digest") None None None
                                None None None None) demoWorld)
    as (_ & _ & Hrun).
  split.
  - apply (Hkey "U7" demoW1); [reflexivity | discriminate | | reflexivity].
    intros x [<- | [<- | []]]; discriminate.
  - destruct Hrun as (returned & w' & Hrun & Hids & Hothers & _);
      [discriminate | intros u Hu; discriminate |].
    exists returned, w'. split; [exact Hrun|]. split; [exact Hids|].
    split.
    + apply Hothers; [right; now left|]. intros [Hid _]. discriminate.
    + injection Hrun as <- _. reflexivity.
Defined.

(** X11.  The patch of [updateWorkflow] may carry a [userId], and it is
    applied like any other column: the workflow changes hands, provided the
    new owner is a stored user.  Afterwards the former owner's lookup finds
    nothing, and the new owner's lookup returns the patched workflow (the
    new owner having had no workflow with that identifier before). *)
Theorem updateWorkflow_moves_ownership (workflowId userId newOwner : string)
    (data : WorkflowPatch.t) (w : World) (wf : Workflow.t) :
  WorkflowPatch.userId data = Some newOwner ->
  newOwner <> userId ->
  (exists x, In x (users (db w)) /\ User.id x = newOwner) ->
  getWorkflowById workflowId userId w = (Resolved (Some wf), w) ->
  getWorkflowById workflowId newOwner w = (Resolved None, w) ->
  exists w',
    updateWorkflow workflowId userId data w
    = (Resolved (Some (applyPatch data wf)), w')
    /\ getWorkflowById workflowId userId w' = (Resolved None, w')
    /\ getWorkflowById workflowId newOwner w'
       = (Resolved (Some (applyPatch data wf)), w')
    /\ Workflow.userId (applyPatch data wf) = newOwner.
Proof.
  intros Hpatch Hne Huser Hold Hnew.
  assert (Hfound : hd_error
                     (filter (fun x => (Workflow.id x =? workflowId)
                                       && (Workflow.userId x =? userId))
                             (workflows (db w))) = Some wf).
  { unfold getWorkflowById, query in Hold. now injection Hold. }
  apply getWorkflowById_None_existsb in Hnew.
  assert (Hnone : forall x, In x (workflows (db w)) ->
            (Workflow.id x =? workflowId) && (Workflow.userId x =? newOwner)
            = false).
  { intros x Hx. apply not_true_is_false. intros Hhit.
    assert (Hex : existsb (fun y => (Workflow.id y =? workflowId)
                                    && (Workflow.userId y =? newOwner))
                          (workflows (db w)) = true)
      by (apply existsb_exists; now exists x).
    congruence. }
  rewrite updateWorkflow_run.
  2: { intros Hempty. rewrite Hempty in Hpatch. discriminate. }
  2: { intros u Hu. rewrite Hpatch in Hu. injection Hu as <-.
       right. right. exact Huser. }
  eexists. split; [|split; [|split]].
  - destruct (filter _ (workflows (db w))) as [|first rest]; [discriminate|].
    injection Hfound as ->. reflexivity.
  - apply getWorkflowById_None_existsb. cbn [db workflows].
    rewrite existsb_map. apply not_true_is_false. intros Hex.
    apply existsb_exists in Hex as (x & Hx & Hhit).
    destruct ((Workflow.id x =? workflowId) && (Workflow.userId x =? userId))
      eqn:E.
    + unfold applyPatch in Hhit. cbn [Workflow.id Workflow.userId] in Hhit.
      rewrite Hpatch in Hhit. apply andb_true_iff in Hhit as [_ Hu].
      apply String.eqb_eq in Hu. contradiction.
    + congruence.
  - unfold getWorkflowById, query. cbn [db workflows].
    assert (Hfilter :
      filter (fun x => (Workflow.id x =? workflowId)
                       && (Workflow.userId x =? newOwner))
             (map (fun x => if (Workflow.id x =? workflowId)
                               && (Workflow.userId x =? userId)
                            then applyPatch data x else x)
                  (workflows (db w)))
      = map (applyPatch data)
            (filter (fun x => (Workflow.id x =? workflowId)
                              && (Workflow.userId x =? userId))
                    (workflows (db w)))).
    { clear Hfound Hnew.
      induction (workflows (db w)) as [|x ws IH]; simpl; [reflexivity|].
      assert (Hx := Hnone x (or_introl eq_refl)).
      assert (Hws : forall y, In y ws ->
                (Workflow.id y =? workflowId) && (Workflow.userId y =? newOwner)
                = false) by (intros y Hy; apply Hnone; now right).
      destruct ((Workflow.id x =? workflowId) && (Workflow.userId x =? userId))
        eqn:E.
      - apply andb_true_iff in E as [E1 _].
        unfold applyPatch at 1 2. cbn [Workflow.id Workflow.userId].
        rewrite Hpatch, E1, String.eqb_refl. simpl. f_equal. now apply IH.
      - rewrite Hx. now apply IH. }
    rewrite Hfilter.
    destruct (filter _ (workflows (db w))) as [|first rest]; [discriminate|].
    injection Hfound as ->. reflexivity.
  - unfold applyPatch. cbn [Workflow.userId]. now rewrite Hpatch.
Qed.

Lemma updateWorkflow_moves_ownership_demo :
  exists w',
    updateWorkflow "W1" "U1"
      (WorkflowPatch.mk (Some "U2") None None None None None None None None)
      demoWorld
    = (Resolved
         (Some (applyPatch
                  (WorkflowPatch.mk (Some "U2") None None None None None None
                                    None None) demoW1)), w')
    /\ getWorkflowById "W1" "U1" w' = (Resolved None, w')
    /\ getWorkflowById "W1" "U2" w'
       = (Resolved
            (Some (applyPatch
                     (WorkflowPatch.mk (Some "U2") None None None None None
                                       None None None) demoW1)), w')
    /\ Workflow.userId
         (applyPatch
            (WorkflowPatch.mk (Some "U2") None None None None None None None
                              None) demoW1) = "U2".
Proof.
  apply (updateWorkflow_moves_ownership "W1" "U1" "U2"
           (WorkflowPatch.mk (Some "U2") None None None None None None None
                             None) demoWorld demoW1);
    [reflexivity | discriminate | | reflexivity | reflexivity].
  eexists. split; [right; left; reflexivity | reflexivity].
Defined.

(** X12.  [deleteWorkflow] removes the user's workflow with the given
    identifier together with its executions, and nothing else: users,
    accounts, emails, labels, associations, the clock and the request log
    are what they were; afterwards the user's lookup finds nothing, the
    other workflows are all there, no execution was invented, executions of
    other workflows are kept, and when a workflow was deleted no execution
    refers to its identifier any more. *)
Theorem deleteWorkflow_cascades (workflowId userId : string) (w : World) :
  exists w',
    deleteWorkflow workflowId userId w = (Resolved tt, w')
    /\ w' = mkWorld
              (mkDatabase (users (db w)) (emailAccounts (db w)) (emails (db w))
                 (labelsTable (db w)) (emailLabels (db w))
                 (workflows (db w')) (workflowExecutions (db w')))
              (clock w) (openai w) (sent w)
    /\ getWorkflowById workflowId userId w' = (Resolved None, w')
    /\ (forall wf, In wf (workflows (db w'))
                   <-> In wf (workflows (db w))
                       /\ ~ (Workflow.id wf = workflowId
                             /\ Workflow.userId wf = userId))
    /\ (forall x, In x (workflowExecutions (db w')) ->
                  In x (workflowExecutions (db w)))
    /\ (forall x, In x (workflowExecutions (db w)) ->
                  WorkflowExecution.workflowId x <> workflowId ->
                  In x (workflowExecutions (db w')))
    /\ ((exists wf, getWorkflowById workflowId userId w
                    = (Resolved (Some wf), w)) ->
        forall x, In x (workflowExecutions (db w')) ->
                  WorkflowExecution.workflowId x <> workflowId).
Proof.
  unfold deleteWorkflow, setDb. cbv zeta. eexists. split; [reflexivity|].
  cbn [db workflows workflowExecutions].
  split; [reflexivity|].
  split; [|split; [|split; [|split]]].
  - apply getWorkflowById_None_existsb. cbn [db workflows].
    apply not_true_is_false. intros Hex.
    apply existsb_exists in Hex as (wf & Hwf & Hhit).
    apply filter_In in Hwf as [_ Hwf]. rewrite Hhit in Hwf. discriminate.
  - intros wf. rewrite filter_In, negb_true_iff, andb_false_iff.
    rewrite !String.eqb_neq. split.
    + intros [Hin Hdiff]. split; [exact Hin|].
      intros [H1 H2]. destruct Hdiff as [Hd | Hd]; now apply Hd.
    + intros [Hin Hdiff]. split; [exact Hin|].
      destruct (String.eqb_spec (Workflow.id wf) workflowId);
        [right | now left].
      intros Heq. apply Hdiff. now split.
  - intros x Hx. now apply filter_In in Hx.
  - intros x Hx Hother. apply filter_In. split; [exact Hx|].
    apply negb_true_iff, not_true_is_false. intros Hex.
    apply existsb_exists in Hex as (wf & Hwf & Heq).
    apply filter_In in Hwf as [_ Hhit].
    apply andb_true_iff in Hhit as [Hid _].
    apply String.eqb_eq in Hid, Heq. congruence.
  - intros [wf Hfound] x Hx Href.
    unfold getWorkflowById, query in Hfound. injection Hfound as Hfound.
    assert (Hdel : In wf (filter (fun y => (Workflow.id y =? workflowId)
                                           && (Workflow.userId y =? userId))
                                 (workflows (db w)))).
    { destruct (filter _ (workflows (db w))) as [|first rest];
        [discriminate|].
      injection Hfound as ->. now left. }
    destruct (hd_error_filter_Some _ _ _ Hfound) as [_ Hhit].
    apply andb_true_iff in Hhit as [Hid _]. apply String.eqb_eq in Hid.
    apply filter_In in Hx as [_ Hkeep].
    apply negb_true_iff in Hkeep.
    assert (Hex : existsb (fun y => Workflow.id y
                                    =? WorkflowExecution.workflowId x)
                    (filter (fun y => (Workflow.id y =? workflowId)
                                      && (Workflow.userId y =? userId))
                            (workflows (db w))) = true).
    { apply existsb_exists. exists wf. split; [exact Hdel|].
      apply String.eqb_eq. congruence. }
    congruence.
Qed.

(** X13.  The delete routes for workflows and labels answer 200 whatever
    they find: deleting a workflow or a label that does not exist, or that
    belongs to someone else, is reported as "deleted" and changes
    nothing. *)
Theorem delete_routes_always_succeed (userId id : string) (w : World) :
  (exists w',
      deleteWorkflowRoute userId id w
      = (Resolved (mkResponse 200 (JsonMessage "Workflow deleted")), w')
      /\ (getWorkflowById id userId w = (Resolved None, w) -> w' = w))
  /\ (exists w',
        deleteLabelRoute userId id w
        = (Resolved (mkResponse 200 (JsonMessage "Label deleted")), w')
        /\ (ownsLabel (db w) userId id = false -> w' = w)).
Proof.
  split.
  - eexists. split; [reflexivity|].
    intros Hnone. apply getWorkflowById_None_existsb in Hnone.
    cbn [db clock openai sent]. rewrite (filter_unhit _ _ Hnone).
    apply hd_error_filter_existsb in Hnone.
    destruct (filter _ (workflows (db w))); [|discriminate].
    simpl. rewrite (filter_unhit (fun _ => false)).
    + destruct w as [[] ? ? ?]. reflexivity.
    + induction (workflowExecutions (db w)); simpl; auto.
  - eexists. split; [reflexivity|].
    intros Hnone. unfold ownsLabel in Hnone.
    cbn [db clock openai sent]. rewrite (filter_unhit _ _ Hnone).
    apply hd_error_filter_existsb in Hnone.
    destruct (filter _ (labelsTable (db w))); [|discriminate].
    simpl. rewrite (filter_unhit (fun _ => false)).
    + destruct w as [[] ? ? ?]. reflexivity.
    + induction (emailLabels (db w)); simpl; auto.
Qed.

(** X14.  DELETE /api/emails/:emailId/labels/:labelId answers 200 "Label
    removed" when the user owns both the email and the label, and otherwise
    500 "Failed to remove label" with the world unchanged: a missing or
    foreign email or label is reported as a server error, not as 404. *)
Theorem removeLabelRoute_status (userId emailId labelId : string) (w : World) :
  (ownsEmail (db w) userId emailId = true ->
   ownsLabel (db w) userId labelId = true ->
   exists w',
     removeLabelRoute userId emailId labelId w
     = (Resolved (mkResponse 200 (JsonMessage "Label removed")), w')
     /\ associations emailId labelId (db w') = [])
  /\ (ownsEmail (db w) userId emailId = false
      \/ ownsLabel (db w) userId labelId = false ->
      removeLabelRoute userId emailId labelId w
      = (Resolved (mkResponse 500 (JsonMessage "Failed to remove label")), w)).
Proof.
  split.
  - intros He Hl. unfold removeLabelRoute, tryCatch, bind.
    rewrite (removeLabelFromEmail_run _ _ _ _ He Hl).
    eexists. split; [reflexivity|].
    unfold associations. cbn [db withEmailLabels emailLabels].
    apply filter_none. intros r Hr. apply filter_In in Hr as [_ Hr].
    now apply negb_true_iff in Hr.
  - intros Hmissing. unfold removeLabelRoute, tryCatch, bind.
    assert (Hthrow : removeLabelFromEmail emailId labelId userId w
                     = (Threw "Email or label not found", w)).
    { unfold removeLabelFromEmail, bind.
      destruct (ownsEmail (db w) userId emailId) eqn:He.
      - destruct Hmissing as [Hm | Hm]; [discriminate|].
        destruct (getEmailById_found _ _ _ w eq_refl He) as [r Hr].
        rewrite Hr, (getLabelById_missing _ _ _ Hm). reflexivity.
      - rewrite (getEmailById_missing _ _ _ w eq_refl He).
        destruct (ownsLabel (db w) userId labelId) eqn:Hl.
        + destruct (getLabelById_found _ _ w Hl) as [l Hlab].
          rewrite Hlab. reflexivity.
        + rewrite (getLabelById_missing _ _ _ Hl). reflexivity. }
    rewrite Hthrow. reflexivity.
Qed.

Lemma removeLabelRoute_status_demo :
  removeLabelRoute "U2" "E1" "L1" demoWorld
  = (Resolved (mkResponse 500 (JsonMessage "Failed to remove label")), demoWorld)
  /\ exists w',
       removeLabelRoute "U1" "E1" "L1" demoWorld
       = (Resolved (mkResponse 200 (JsonMessage "Label removed")), w')
       /\ associations "E1" "L1" (db w') = [].
Proof.
  destruct (removeLabelRoute_status "U2" "E1" "L1" demoWorld) as [_ Hno].
  destruct (removeLabelRoute_status "U1" "E1" "L1" demoWorld) as [Hyes _].
  split; [apply Hno; left | apply Hyes]; reflexivity.
Defined.

(** ** Deleting a label *)

(** X15.  Deleting a label does not touch the workflows whose filter
    names it, but it removes the label's associations; so a workflow that
    filters on that label alone selects nothing afterwards, and running it
    answers 400 "No emails match the workflow criteria". *)
Theorem deleteLabel_starves_workflow (userId labelId id : string) (w : World)
    (wf : Workflow.t) :
  ownsLabel (db w) userId labelId = true ->
  getWorkflowById id userId w = (Resolved (Some wf), w) ->
  Filters.labelIds (Workflow.filters wf) = Some [labelId] ->
  exists w',
    deleteLabel labelId userId w = (Resolved tt, w')
    /\ workflows (db w') = workflows (db w)
    /\ (forall r, In r (emailLabels (db w')) ->
                  EmailLabel.labelId r <> labelId)
    /\ executeRoute userId id w'
       = (Resolved (mkResponse 400
                      (JsonMessage "No emails match the workflow criteria")),
          w').
Proof.
  intros Hown Hload Hfilter.
  unfold deleteLabel, setDb. cbv zeta. eexists. split; [reflexivity|].
  set (d' := mkDatabase _ _ _ _ _ _ _).
  set (w' := mkWorld d' _ _ _).
  assert (Hgone : forall r, In r (emailLabels (db w')) ->
                            EmailLabel.labelId r <> labelId).
  { intros r Hr Href. cbn [db emailLabels w' d'] in Hr.
    apply filter_In in Hr as [_ Hkeep]. apply negb_true_iff in Hkeep.
    unfold ownsLabel in Hown. apply existsb_exists in Hown as (l & Hl & Hhit).
    assert (Hex : existsb (fun x => Label.id x =? EmailLabel.labelId r)
                    (filter (fun x => (Label.id x =? labelId)
                                      && (Label.userId x =? userId))
                            (labelsTable (db w))) = true).
    { apply existsb_exists. exists l. split; [now apply filter_In|].
      apply andb_true_iff in Hhit as [Hid _]. apply String.eqb_eq in Hid.
      apply String.eqb_eq. congruence. }
    congruence. }
  split; [reflexivity|]. split; [exact Hgone|].
  assert (Hload' : getWorkflowById id userId w' = (Resolved (Some wf), w')).
  { unfold getWorkflowById, query in *. cbn [db workflows w' d'].
    injection Hload as ->. reflexivity. }
  assert (Huser : Workflow.userId wf = userId).
  { unfold getWorkflowById, query in Hload. injection Hload as Hfound.
    apply hd_error_filter_Some in Hfound as [_ Hhit].
    apply andb_true_iff in Hhit as [_ Hu]. now apply String.eqb_eq in Hu. }
  unfold executeRoute, tryCatch, bind.
  rewrite Hload', Huser, getEmailsByUserId_unfold.
  assert (Hnone : filterEmails (Workflow.filters wf)
                    (mapValues (fold_left groupRow (userRows (db w') userId) []))
                  = []).
  { unfold filterEmails. rewrite Hfilter. cbn [List.length Nat.ltb Nat.leb].
    apply filter_none. intros e He.
    apply listed_from in He as (_ & _ & Hlabels).
    rewrite Forall_forall in Hlabels.
    apply not_true_is_false. intros Hex.
    apply existsb_exists in Hex as (al & Hal & Hmatch).
    apply existsb_exists in Hmatch as (x & [<- | []] & Heq).
    apply String.eqb_eq in Heq.
    destruct (Hlabels al Hal) as (Hrow & _ & _ & Hid).
    apply (Hgone _ Hrow). congruence. }
  rewrite Hnone. reflexivity.
Qed.

Lemma deleteLabel_starves_workflow_demo :
  exists w',
    deleteLabel "L1" "U1" demoWorld = (Resolved tt, w')
    /\ workflows (db w') = workflows (db demoWorld)
    /\ (forall r, In r (emailLabels (db w')) -> EmailLabel.labelId r <> "L1")
    /\ executeRoute "U1" "W1" w'
       = (Resolved (mkResponse 400
                      (JsonMessage "No emails match the workflow criteria")),
          w').
Proof.
  apply (deleteLabel_starves_workflow "U1" "L1" "W1" demoWorld demoW1);
    reflexivity.
Defined.

(** ** Listing executions *)

Lemma Subsequence_firstn {A} (n : nat) (l : list A) :
  Subsequence (firstn n l) l.
Proof.
  assert (Hnil : forall l0 : list A, Subsequence [] l0)
    by (induction l0; constructor; assumption).
  revert n. induction l as [|x l IH]; intros [|n]; simpl;
    try apply Hnil.
  apply Subsequence_keep. apply IH.
Qed.

Lemma executedAtDesc_total x y :
  executedAtDesc x y = true \/ executedAtDesc y x = true.
Proof.
  unfold executedAtDesc.
  destruct (WorkflowExecution.executedAt x), (WorkflowExecution.executedAt y);
    auto.
  rewrite !Z.leb_le. lia.
Qed.

Lemma executedAtDesc_trans x y z :
  executedAtDesc x y = true -> executedAtDesc y z = true ->
  executedAtDesc x z = true.
Proof.
  unfold executedAtDesc.
  destruct (WorkflowExecution.executedAt x), (WorkflowExecution.executedAt y),
           (WorkflowExecution.executedAt z); auto; try discriminate.
  rewrite !Z.leb_le. lia.
Qed.

(** X16.  [getExecutionsByWorkflowId] returns at most ten executions, all
    of them stored executions of the requested workflow, which the
    requester owns; they come latest first (those without a timestamp
    ahead); and for a workflow the requester does not own the list is
    empty. *)
Theorem getExecutionsByWorkflowId_scoped (workflowId userId : string)
    (w : World) :
  exists result,
    getExecutionsByWorkflowId workflowId userId w = (Resolved result, w)
    /\ (List.length result <= 10)%nat
    /\ (forall x, In x result ->
          In x (workflowExecutions (db w))
          /\ WorkflowExecution.workflowId x = workflowId
          /\ exists wf, In wf (workflows (db w))
                        /\ Workflow.id wf = workflowId
                        /\ Workflow.userId wf = userId)
    /\ StronglySorted (fun x y => executedAtDesc x y = true) result
    /\ (getWorkflowById workflowId userId w = (Resolved None, w) ->
        result = []).
Proof.
  unfold getExecutionsByWorkflowId, query. eexists. split; [reflexivity|].
  split; [apply firstn_le_length|].
  assert (Hin : forall x,
            In x (firstn 10
                    (orderBy executedAtDesc
                       (flat_map
                          (fun x =>
                             flat_map
                               (fun wf =>
                                  if (WorkflowExecution.workflowId x
                                      =? Workflow.id wf)
                                     && ((WorkflowExecution.workflowId x
                                          =? workflowId)
                                         && (Workflow.userId wf =? userId))
                                  then [x] else [])
                               (workflows (db w)))
                          (workflowExecutions (db w))))) ->
            In x (workflowExecutions (db w))
            /\ WorkflowExecution.workflowId x = workflowId
            /\ exists wf, In wf (workflows (db w))
                          /\ Workflow.id wf = workflowId
                          /\ Workflow.userId wf = userId).
  { intros x Hx.
    apply (Subsequence_In _ _ _ (Subsequence_firstn _ _)) in Hx.
    apply orderBy_In in Hx. apply in_flat_map in Hx as (x0 & Hx0 & Hx).
    apply in_flat_map in Hx as (wf & Hwf & Hx).
    destruct ((WorkflowExecution.workflowId x0 =? Workflow.id wf)
              && ((WorkflowExecution.workflowId x0 =? workflowId)
                  && (Workflow.userId wf =? userId))) eqn:E;
      [|contradiction].
    destruct Hx as [<- | []].
    apply andb_true_iff in E as [Ejoin E].
    apply andb_true_iff in E as [Eid Eu].
    apply String.eqb_eq in Ejoin, Eid, Eu.
    split; [exact Hx0|]. split; [exact Eid|].
    exists wf. split; [exact Hwf|]. split; [congruence | exact Eu]. }
  split; [exact Hin|]. split.
  - eapply Subsequence_StronglySorted; [apply Subsequence_firstn|].
    apply orderBy_sorted;
      [apply executedAtDesc_total | apply executedAtDesc_trans].
  - intros Hnone. apply getWorkflowById_None_existsb in Hnone.
    destruct (firstn 10 _) as [|x rest] eqn:E; [reflexivity|].
    destruct (Hin x (or_introl eq_refl)) as (_ & _ & wf & Hwf & Hid & Hu).
    assert (Hex : existsb (fun y => (Workflow.id y =? workflowId)
                                    && (Workflow.userId y =? userId))
                          (workflows (db w)) = true).
    { apply existsb_exists. exists wf. split; [exact Hwf|].
      rewrite Hid, Hu, !String.eqb_refl. reflexivity. }
    congruence.
Qed.

(** ** The classify route, end to end *)

Lemma forOf_addLabelToEmail userId emailId ids w :
  ownsEmail (db w) userId emailId = true ->
  (forall id, In id ids -> ownsLabel (db w) userId id = true) ->
  exists added,
    forOf ids
      (fun labelId =>
         addLabelToEmail (InsertEmailLabel.mk emailId labelId true) userId) w
    = (Resolved tt,
       mkWorld (withEmailLabels (db w) (emailLabels (db w) ++ added)%list)
               (clock w) (openai w) (sent w))
    /\ map rowData added = map (fun id => (emailId, id, true)) ids.
Proof.
  revert w. induction ids as [|id ids IH]; intros w He Hl.
  - exists []. split; [|reflexivity]. simpl. unfold ret.
    rewrite app_nil_r. destruct w as [[] ? ? ?]. reflexivity.
  - simpl. unfold bind.
    rewrite (addLabelToEmail_run (InsertEmailLabel.mk emailId id true) userId w);
      [| exact He | apply Hl; now left].
    cbn [InsertEmailLabel.emailId InsertEmailLabel.labelId
         InsertEmailLabel.isAuto].
    set (row := EmailLabel.mk _ emailId id true).
    set (w1 := mkWorld _ _ _ _).
    destruct (IH w1) as (added & Hrun & Hdata).
    { exact He. }
    { intros x Hx. apply Hl. now right. }
    exists (row :: added). split.
    + rewrite Hrun. unfold w1. cbn [db clock openai sent].
      unfold withEmailLabels. cbn [emailAccounts emails labelsTable
        emailLabels workflows workflowExecutions].
      now rewrite <- app_assoc.
    + simpl. now rewrite Hdata.
Qed.

Lemma getLabelsByUserId_owned userId w l :
  In l (orderBy (fun l1 l2 => String.leb (Label.name l1) (Label.name l2))
                (filter (fun x => Label.userId x =? userId)
                        (labelsTable (db w)))) ->
  ownsLabel (db w) userId (Label.id l) = true.
Proof.
  rewrite orderBy_In, filter_In. intros [Hin Hu].
  unfold ownsLabel. apply existsb_exists. exists l. split; [exact Hin|].
  now rewrite String.eqb_refl, Hu.
Qed.

(** X17.  Past its two guards the classify route cannot fail: for an email
    of the user, and a user with at least one label, it answers 200 with
    the identifiers [classifyEmail] resolved with.  Each of them is a label
    of the user, and for each the route has appended one automatic
    association with the email, in order; nothing else in the database
    changes. *)
Theorem classifyRoute_attaches (userId emailId : string) (w : World)
    (email : EmailWithLabels) (labels : list Label.t) :
  getEmailById emailId userId w = (Resolved (Some email), w) ->
  getLabelsByUserId userId w = (Resolved labels, w) ->
  labels <> [] ->
  exists ids w1 w' added,
    classifyEmail (Email.subject (emailColumns email))
                  (Email.bodyPreview (emailColumns email)) labels w
    = (Resolved ids, w1)
    /\ classifyRoute userId emailId w
       = (Resolved (mkResponse 200 (JsonClassified "Email classified" ids)), w')
    /\ (forall id, In id ids -> ownsLabel (db w) userId id = true)
    /\ db w' = withEmailLabels (db w) (emailLabels (db w) ++ added)%list
    /\ map rowData added = map (fun id => (emailId, id, true)) ids.
Proof.
  intros Hemail Hlabels Hne.
  pose proof (classifyEmail_run (Email.subject (emailColumns email))
                (Email.bodyPreview (emailColumns email)) labels w Hne) as Hrun.
  cbv zeta in Hrun.
  set (ids := match matchSuggestedLabels _ labels with
              | Resolved ids0 => ids0
              | Threw _ => []
              end) in Hrun.
  set (w1 := mkWorld (db w) _ (openai w) _) in Hrun.
  assert (Hids : forall id, In id ids -> ownsLabel (db w) userId id = true).
  { intros id Hid. subst ids.
    destruct (matchSuggestedLabels _ labels) as [ids0|] eqn:E; [|contradiction].
    destruct (matchSuggestedLabels_candidates _ _ _ E id Hid) as (l & Hl & <-).
    unfold getLabelsByUserId, query in Hlabels. injection Hlabels as <-.
    now apply getLabelsByUserId_owned. }
  assert (He : ownsEmail (db w1) userId emailId = true).
  { unfold w1. cbn [db].
    destruct (ownsEmail (db w) userId emailId) eqn:E; [reflexivity|].
    rewrite (getEmailById_missing _ _ _ w eq_refl E) in Hemail. discriminate. }
  destruct (forOf_addLabelToEmail userId emailId ids w1 He) as (added & Hfor & Hdata).
  { exact Hids. }
  exists ids, w1. eexists. exists added.
  split; [exact Hrun|]. split; [|split; [exact Hids|split; [|exact Hdata]]].
  - unfold classifyRoute, tryCatch, bind.
    rewrite Hemail, Hlabels, (length_nonzero _ Hne), Hrun, Hfor. reflexivity.
  - reflexivity.
Qed.

(** ** The dashboard counters *)

Lemma countedEmails_In d userId e :
  In e (countedEmails d userId) <-> In e (emails d) /\ ownedBy d userId e.
Proof.
  unfold countedEmails, ownedBy. rewrite in_flat_map. split.
  - intros (e0 & He0 & H). apply in_flat_map in H as (a & Ha & H).
    destruct ((Email.emailAccountId e0 =? EmailAccount.id a)
              && (EmailAccount.userId a =? userId)) eqn:E; [|contradiction].
    destruct H as [<- | []].
    apply andb_true_iff in E as [E1 E2]. apply String.eqb_eq in E1, E2.
    split; [exact He0|]. now exists a.
  - intros [He (a & Ha & Hjoin & Hu)]. exists e. split; [exact He|].
    apply in_flat_map. exists a. split; [exact Ha|].
    rewrite Hjoin, Hu, !String.eqb_refl. now left.
Qed.

Lemma one_account_per_email (accounts : list EmailAccount.t) (e : Email.t)
    (userId : string) :
  NoDup (map EmailAccount.id accounts) ->
  le (List.length
        (flat_map
           (fun a =>
              if (Email.emailAccountId e =? EmailAccount.id a)
                 && (EmailAccount.userId a =? userId)
              then [e] else [])
           accounts)) 1.
Proof.
  induction accounts as [|a accounts IH]; simpl; intros Hnd; [lia|].
  inversion Hnd as [|? ? Hnotin Hnd']; subst.
  destruct ((Email.emailAccountId e =? EmailAccount.id a)
            && (EmailAccount.userId a =? userId)) eqn:E.
  - apply andb_true_iff in E as [E1 _]. apply String.eqb_eq in E1.
    assert (Hrest : flat_map
                      (fun a0 =>
                         if (Email.emailAccountId e =? EmailAccount.id a0)
                            && (EmailAccount.userId a0 =? userId)
                         then [e] else [])
                      accounts = []).
    { clear IH Hnd Hnd'. induction accounts as [|b accounts IH]; simpl;
        [reflexivity|].
      destruct (String.eqb_spec (Email.emailAccountId e) (EmailAccount.id b))
        as [Heq|Hneq].
      - exfalso. apply Hnotin. left. congruence.
      - simpl. apply IH. intros Hin. apply Hnotin. now right. }
    rewrite Hrest. simpl. lia.
  - simpl. now apply IH.
Qed.

Lemma countedEmails_Subsequence d userId :
  NoDup (map EmailAccount.id (emailAccounts d)) ->
  Subsequence (countedEmails d userId) (emails d).
Proof.
  intros Hnd. unfold countedEmails.
  induction (emails d) as [|e es IH]; simpl; [constructor|].
  pose proof (one_account_per_email (emailAccounts d) e userId Hnd) as Hone.
  assert (Hshape : forall l, In e l \/ l = [] ->
            (forall x, In x l -> x = e) -> (List.length l <= 1)%nat ->
            l = [] \/ l = [e]).
  { intros [|x [|y l]] _ Hall Hlen; simpl in Hlen; [now left | | lia].
    right. f_equal. apply Hall. now left. }
  destruct (Hshape
              (flat_map
                 (fun a =>
                    if (Email.emailAccountId e =? EmailAccount.id a)
                       && (EmailAccount.userId a =? userId)
                    then [e] else [])
                 (emailAccounts d))) as [-> | ->].
  - destruct (flat_map _ (emailAccounts d)) as [|x l] eqn:E; [now right|].
    left. assert (Hx : In x (x :: l)) by now left.
    rewrite <- E in Hx. apply in_flat_map in Hx as (a & _ & Hx).
    destruct (_ && _); [|contradiction]. destruct Hx as [<- | []]. now left.
  - intros x Hx. apply in_flat_map in Hx as (a & _ & Hx).
    destruct (_ && _); [|contradiction]. now destruct Hx as [<- | []].
  - exact Hone.
  - simpl. now constructor.
  - simpl. now constructor.
Qed.

Lemma Subsequence_NoDup {A} (l1 l2 : list A) :
  Subsequence l1 l2 -> NoDup l2 -> NoDup l1.
Proof.
  induction 1 as [|x l1 l2 Hsub IH|x l1 l2 Hsub IH]; intros Hnd.
  - constructor.
  - apply IH. now inversion Hnd.
  - inversion Hnd as [|? ? Hnotin Hnd']; subst. constructor; [|now apply IH].
    intros Hin. apply Hnotin. eapply Subsequence_In; eassumption.
Qed.

(** X18.  The counters of [getStats] agree with the lists the other
    queries return: there are never more unread emails than emails, the
    label counter is the length of [getLabelsByUserId], and, identifiers of
    emails and of accounts being unique, the email counter is the length of
    [getEmailsByUserId]. *)
Theorem getStats_consistent (userId : string) (w : World) :
  exists stats,
    getStats userId w = (Resolved stats, w)
    /\ (unreadEmails stats <= totalEmails stats)%nat
    /\ (exists labels,
           getLabelsByUserId userId w = (Resolved labels, w)
           /\ totalLabels stats = List.length labels)
    /\ (NoDup (map Email.id (emails (db w))) ->
        NoDup (map EmailAccount.id (emailAccounts (db w))) ->
        exists listed,
          getEmailsByUserId userId w = (Resolved listed, w)
          /\ totalEmails stats = List.length listed).
Proof.
  unfold getStats, query. eexists. split; [reflexivity|].
  cbn [unreadEmails totalEmails totalLabels].
  fold (countedEmails (db w) userId).
  split; [apply filter_length_le|]. split.
  - eexists. split; [reflexivity|].
    symmetry. apply Permutation_length, orderBy_Permutation.
  - intros Hemails Haccounts.
    rewrite getEmailsByUserId_unfold. eexists. split; [reflexivity|].
    set (listed := mapValues (fold_left groupRow (userRows (db w) userId) [])).
    destruct (grouped_rows (db w) (userRows (db w) userId))
      as (_ & _ & _ & Hnodup & Hkeys & _).
    { intros r Hr. now apply userRows_In in Hr. }
    fold listed in Hnodup, Hkeys.
    rewrite <- (length_map Email.id (countedEmails (db w) userId)).
    rewrite <- (length_map (fun e => Email.id (emailColumns e)) listed).
    apply Permutation_length, NoDup_Permutation.
    + eapply Subsequence_NoDup; [|exact Hemails].
      apply Subsequence_map. now apply countedEmails_Subsequence.
    + exact Hnodup.
    + intros k. split.
      * intros Hk. apply in_map_iff in Hk as (e & <- & He).
        apply countedEmails_In in He as [He (a & Ha & Hjoin & Hu)].
        destruct (selectEmailRows_complete (db w)
                    (fun _ a => EmailAccount.userId a =? userId) e a)
          as (r & Hr & Heq); auto.
        { now apply String.eqb_eq. }
        apply Hkeys. apply in_map_iff. exists r. rewrite Heq.
        split; [reflexivity|]. unfold userRows. now apply orderBy_In.
      * intros Hk. apply in_map_iff in Hk as (e & <- & He).
        apply listed_from in He as (Hstored & Howned & _).
        apply in_map. now apply countedEmails_In.
Qed.

Lemma getStats_consistent_demo :
  exists stats,
    getStats "U1" demoWorld = (Resolved stats, demoWorld)
    /\ totalEmails stats = 2%nat /\ unreadEmails stats = 2%nat
    /\ totalLabels stats = 1%nat /\ activeWorkflows stats = 2%nat
    /\ exists listed,
         getEmailsByUserId "U1" demoWorld = (Resolved listed, demoWorld)
         /\ totalEmails stats = List.length listed.
Proof.
  destruct (getStats_consistent "U1" demoWorld)
    as (stats & Hrun & _ & _ & Hlisted).
  exists stats. split; [exact Hrun|].
  injection Hrun as <-.
  repeat (split; [reflexivity|]).
  apply Hlisted; simpl.
  - repeat constructor; simpl; intuition discriminate.
  - repeat constructor; simpl; intuition.
Defined.

(** ** Storing an email *)





(** ** Listing labels *)

Lemma insertBy_head {A} (le : A -> A -> bool) (x : A) (l : list A) :
  insertBy le x l = x :: l
  \/ exists y rest rest', l = y :: rest /\ insertBy le x l = y :: rest'.
Proof.
  destruct l as [|y l]; simpl; [now left|].
  destruct (le x y); [now left|]. right. now exists y, l, (insertBy le x l).
Qed.

Lemma insertBy_Sorted {A} (le : A -> A -> bool) (x : A) (l : list A) :
  (forall a b, le a b = true \/ le b a = true) ->
  Sorted (fun a b => le a b = true) l ->
  Sorted (fun a b => le a b = true) (insertBy le x l).
Proof.
  intros Htotal. induction 1 as [|y l Hs IH Hhd]; simpl.
  - repeat constructor.
  - destruct (le x y) eqn:E.
    + constructor; [now constructor | now constructor].
    + constructor; [exact IH|].
      assert (Hyx : le y x = true).
      { destruct (Htotal x y) as [H|H]; [congruence | exact H]. }
      destruct (insertBy_head le x l) as [-> | (z & rest & rest' & -> & ->)].
      * now constructor.
      * constructor. now inversion Hhd.
Qed.

Lemma orderBy_Sorted {A} (le : A -> A -> bool) (l : list A) :
  (forall a b, le a b = true \/ le b a = true) ->
  Sorted (fun a b => le a b = true) (orderBy le l).
Proof.
  intros Htotal. induction l as [|x l IH]; [constructor|].
  unfold orderBy in *. simpl. now apply insertBy_Sorted.
Qed.

(** X20.  [getLabelsByUserId] returns exactly the user's labels, each as
    often as it is stored, arranged so that every name is at most the name
    that follows it. *)
Theorem getLabelsByUserId_sorted (userId : string) (w : World) :
  exists result,
    getLabelsByUserId userId w = (Resolved result, w)
    /\ Permutation result
         (filter (fun l => Label.userId l =? userId) (labelsTable (db w)))
    /\ (forall l, In l result <->
                  In l (labelsTable (db w)) /\ Label.userId l = userId)
    /\ Sorted (fun l1 l2 => String.leb (Label.name l1) (Label.name l2) = true)
              result.
Proof.
  unfold getLabelsByUserId, query. eexists. split; [reflexivity|].
  split; [apply orderBy_Permutation|]. split.
  - intros l. rewrite orderBy_In, filter_In, String.eqb_eq. reflexivity.
  - apply orderBy_Sorted. intros a b. apply String.leb_total.
Qed.

(** ** The routes never reject *)

(** X21.  Whatever the database holds and whatever the model answers, the
    execute route and the classify route resolve with a response, and its
    status is one of 200, 400, 404 and 500: no error escapes a handler. *)
Theorem routes_always_answer (userId id : string) (w : World) :
  (exists response w',
      executeRoute userId id w = (Resolved response, w')
      /\ In (status response) [200; 400; 404; 500]%nat)
  /\ (exists response w',
        classifyRoute userId id w = (Resolved response, w')
        /\ In (status response) [200; 400; 404; 500]%nat).
Proof.
  split.
  - unfold executeRoute, tryCatch, bind, getWorkflowById, getEmailsByUserId,
      query.
    destruct (hd_error _) as [wf|].
    + match goal with
      | |- context [(List.length ?l =? 0)%nat] =>
          destruct (List.length l =? 0)%nat
      end.
      * eexists. eexists. split; [reflexivity|]. simpl. tauto.
      * destruct (generateWorkflowSummary _ _ w) as [[summary|e] w1].
        -- destruct (createWorkflowExecution _ w1) as [[x|e] w2].
           ++ eexists. eexists. split; [reflexivity|]. simpl. tauto.
           ++ eexists. eexists. split; [reflexivity|]. simpl. tauto.
        -- eexists. eexists. split; [reflexivity|]. simpl. tauto.
    + eexists. eexists. split; [reflexivity|]. simpl. tauto.
  - unfold classifyRoute, tryCatch, bind.
    destruct (getEmailById id userId w) as [[[email|]|e] w0].
    + unfold getLabelsByUserId, query.
      match goal with
      | |- context [(List.length ?l =? 0)%nat] =>
          destruct (List.length l =? 0)%nat
      end.
      * eexists. eexists. split; [reflexivity|]. simpl. tauto.
      * destruct (classifyEmail _ _ _ w0) as [[ids|e] w1].
        -- destruct (forOf ids _ w1) as [[[]|e] w2];
             eexists; eexists; (split; [reflexivity|]); simpl; tauto.
        -- eexists. eexists. split; [reflexivity|]. simpl. tauto.
    + eexists. eexists. split; [reflexivity|]. simpl. tauto.
    + eexists. eexists. split; [reflexivity|]. simpl. tauto.
Qed.

(** ** Widening a filter *)

Lemma filter_Subsequence_filter {A} (f g : A -> bool) (l : list A) :
  (forall x, f x = true -> g x = true) ->
  Subsequence (filter f l) (filter g l).
Proof.
  intros H. induction l as [|x l IH]; simpl; [constructor|].
  destruct (f x) eqn:E.
  - rewrite (H x E). now constructor.
  - destruct (g x); [now constructor | exact IH].
Qed.

(** X22.  The filter is a disjunction, so naming more labels never loses
    an email: for a non-empty [labelIds], what it selects is a subsequence
    of what any longer list selects.  The empty list is the exception the
    code makes: it selects everything, so adding a first label narrows the
    selection. *)
Theorem filterEmails_widens (labelIds more : list string)
    (allEmails : list EmailWithLabels) :
  (labelIds <> [] ->
   Subsequence (filterEmails (Filters.mk (Some labelIds)) allEmails)
               (filterEmails (Filters.mk (Some (labelIds ++ more)%list))
                             allEmails))
  /\ Subsequence (filterEmails (Filters.mk (Some (labelIds ++ more)%list))
                               allEmails)
                 (filterEmails (Filters.mk (Some [])) allEmails).
Proof.
  split.
  - intros Hne. unfold filterEmails. cbn [Filters.labelIds].
    destruct labelIds as [|x ids]; [congruence|].
    change (0 <? List.length (x :: ids))%nat with true.
    change (0 <? List.length ((x :: ids) ++ more))%nat with true.
    cbv iota. apply filter_Subsequence_filter.
    intros e He. apply existsb_exists in He as (al & Hal & Hin).
    apply existsb_exists. exists al. split; [exact Hal|].
    apply existsb_exists in Hin as (y & Hy & Heq).
    apply existsb_exists. exists y. split; [|exact Heq].
    apply in_or_app. now left.
  - unfold filterEmails. cbn [Filters.labelIds].
    change (0 <? List.length (@nil string))%nat with false. cbv iota.
    destruct (0 <? List.length (labelIds ++ more))%nat;
      [apply filter_Subsequence | apply Subsequence_refl].
Qed.

Lemma filterEmails_widens_demo :
  Subsequence
    (filterEmails (Filters.mk (Some ["L9"]))
                  [demoE1WithLabels; demoE2WithLabels])
    (filterEmails (Filters.mk (Some ["L9"; "L1"]))
                  [demoE1WithLabels; demoE2WithLabels]).
Proof.
  destruct (filterEmails_widens ["L9"] ["L1"]
              [demoE1WithLabels; demoE2WithLabels]) as [H _].
  apply H. discriminate.
Defined.

(** ** The inbox search *)

Lemma includes_empty (s : string) : includes s EmptyString = true.
Proof. destruct s; reflexivity. Qed.

(** X23.  The inbox search keeps the order of the emails and invents none,
    and while the emails have not loaded there is no list.  A lower-casing
    that is the ASCII fold on ASCII text given: an empty query shows every
    email, and two ASCII queries that differ only in the case of the
    letters A-Z show the same emails, whatever the emails contain. *)
Theorem inboxFilteredEmails_search (emails : list EmailWithLabels)
    (searchQuery : string) :
  (exists shown,
      inboxFilteredEmails (Some emails) searchQuery = Some shown
      /\ Subsequence shown emails)
  /\ inboxFilteredEmails None searchQuery = None
  /\ (AgreesOnAscii toLowerCase ->
      inboxFilteredEmails (Some emails) EmptyString = Some emails
      /\ forall other,
           isAsciiText searchQuery = true -> isAsciiText other = true ->
           asciiFold other = asciiFold searchQuery ->
           inboxFilteredEmails (Some emails) other
           = inboxFilteredEmails (Some emails) searchQuery).
Proof.
  unfold inboxFilteredEmails. simpl.
  split; [|split; [reflexivity|]].
  - eexists. split; [reflexivity | apply filter_Subsequence].
  - intros Hagree. split.
    + rewrite (Hagree EmptyString eq_refl). simpl. f_equal.
      induction emails as [|e emails IH]; simpl; [reflexivity|].
      rewrite includes_empty. simpl. now rewrite IH.
    + intros other Hquery Hother Hsame.
      now rewrite (Hagree _ Hquery), (Hagree _ Hother), Hsame.
Qed.

(** ** The label checkboxes of the workflow form *)

(** X24.  Ticking a label that is not selected and unticking it again
    gives back the selection; ticking an unselected label keeps the
    selection free of repetitions; and unticking removes the label
    wherever it occurs and leaves the other labels in their order. *)
Theorem onCheckedChange_toggle (value : list string) (labelId : string) :
  (~ In labelId value ->
   onCheckedChange (onCheckedChange value labelId true) labelId false = value)
  /\ (~ In labelId value -> NoDup value ->
      NoDup (onCheckedChange value labelId true))
  /\ (forall v, In v (onCheckedChange value labelId false)
                <-> In v value /\ v <> labelId)
  /\ Subsequence (onCheckedChange value labelId false) value.
Proof.
  unfold onCheckedChange. split; [|split; [|split]].
  - intros Hnotin. rewrite filter_app. simpl. rewrite String.eqb_refl. simpl.
    rewrite app_nil_r.
    induction value as [|x value IH]; simpl; [reflexivity|].
    destruct (String.eqb_spec x labelId) as [->|Hne].
    + exfalso. apply Hnotin. now left.
    + simpl. f_equal. apply IH. intros Hin. apply Hnotin. now right.
  - intros Hnotin Hnd. apply NoDup_app; [exact Hnd | repeat constructor; intros [] |].
    intros x Hx [<- | []]. contradiction.
  - intros v. rewrite filter_In, negb_true_iff, String.eqb_neq. reflexivity.
  - apply filter_Subsequence.
Qed.

Lemma onCheckedChange_toggle_demo :
  onCheckedChange (onCheckedChange ["L1"] "L2" true) "L2" false = ["L1"]
  /\ NoDup (onCheckedChange ["L1"] "L2" true).
Proof.
  destruct (onCheckedChange_toggle ["L1"] "L2") as (Hback & Hnodup & _).
  assert (Hnotin : ~ In "L2" ["L1"]).
  { simpl. intros [H | []]. discriminate. }
  split; [now apply Hback | apply Hnodup; [exact Hnotin|]].
  repeat constructor. intros [].
Defined.

(** ** What a run leaves of the workflow *)



(** ** Updating a label *)

Lemma noLabelValuesToSet_empty (data : LabelPatch.t) :
  noLabelValuesToSet data = true <-> data = LabelPatch.mk None None None None.
Proof.
  split.
  - destruct data as [[] [] [] []]; simpl; intros H; try discriminate.
    reflexivity.
  - intros ->. reflexivity.
Qed.

(** X26.  [updateLabel] refuses a patch that carries no value ("No values
    to set"), and refuses to hand the user's label to an owner that is no
    stored user; in both cases the world is unchanged.  Otherwise it
    resolves and touches only labels that have the given identifier and
    belong to the given user: the identifiers and the number of the labels,
    the labels of other users, the associations and every other table stay
    as they are, so emails keep their labels under a new name; and when the
    user has no such label, nothing is returned and the world is
    unchanged. *)
Theorem updateLabel_scoped (labelId userId : string) (data : LabelPatch.t)
    (w : World) :
  updateLabel labelId userId (LabelPatch.mk None None None None) w
  = (Threw "No values to set", w)
  /\ (forall newOwner,
        LabelPatch.userId data = Some newOwner ->
        newOwner <> userId ->
        (forall x, In x (users (db w)) -> User.id x <> newOwner) ->
        ownsLabel (db w) userId labelId = true ->
        updateLabel labelId userId data w
        = (Threw "violates foreign key constraint", w))
  /\ (data <> LabelPatch.mk None None None None ->
      ownerAccepted (db w) (LabelPatch.userId data) userId
        (ownsLabel (db w) userId labelId) ->
      exists returned w',
        updateLabel labelId userId data w = (Resolved returned, w')
        /\ map Label.id (labelsTable (db w'))
           = map Label.id (labelsTable (db w))
        /\ (forall l, In l (labelsTable (db w)) ->
                      ~ (Label.id l = labelId /\ Label.userId l = userId) ->
                      In l (labelsTable (db w')))
        /\ w' = mkWorld
                  (mkDatabase (users (db w)) (emailAccounts (db w))
                     (emails (db w)) (labelsTable (db w')) (emailLabels (db w))
                     (workflows (db w)) (workflowExecutions (db w)))
                  (clock w) (openai w) (sent w)
        /\ (ownsLabel (db w) userId labelId = false ->
            returned = None /\ w' = w)).
Proof.
  split; [reflexivity|]. split.
  - intros newOwner Hpatch Hne Hnouser Htouched.
    unfold updateLabel. cbv zeta.
    destruct (noLabelValuesToSet data) eqn:E.
    { apply noLabelValuesToSet_empty in E. subst data. discriminate. }
    unfold ownsLabel in Htouched.
    unfold violatesUserKey. rewrite Hpatch, Htouched.
    apply String.eqb_neq in Hne. rewrite Hne.
    assert (Hmissing : existsb (fun x => User.id x =? newOwner)
                               (users (db w)) = false).
    { apply not_true_is_false. intros Hex.
      apply existsb_exists in Hex as (x & Hx & Heq).
      apply String.eqb_eq in Heq. now apply (Hnouser x). }
    rewrite Hmissing. reflexivity.
  - intros Hvalues Howner. unfold updateLabel. cbv zeta.
    destruct (noLabelValuesToSet data) eqn:E.
    { apply noLabelValuesToSet_empty in E. contradiction. }
    unfold ownsLabel in Howner.
    rewrite (violatesUserKey_accepted _ _ _ _ Howner).
    eexists. eexists. split; [reflexivity|]. cbn [db labelsTable].
    split; [|split; [|split; [reflexivity|]]].
    + rewrite map_map. apply map_ext. intros l.
      destruct ((Label.id l =? labelId) && (Label.userId l =? userId));
        reflexivity.
    + intros l Hin Hnot. apply in_map_iff. exists l. split; [|exact Hin].
      destruct ((Label.id l =? labelId) && (Label.userId l =? userId))
        eqn:E2; [|reflexivity].
      apply andb_true_iff in E2 as [E1 E2]. apply String.eqb_eq in E1, E2.
      exfalso. now apply Hnot.
    + intros Hnone. unfold ownsLabel in Hnone.
      rewrite (map_unhit _ _ _ Hnone).
      split.
      * apply hd_error_filter_existsb in Hnone.
        destruct (filter _ (labelsTable (db w))); [reflexivity | discriminate].
      * destruct w as [[] ? ? ?]. reflexivity.
Qed.

(** [U1] renames the label [Work]; [U1] tries to give it to a user that
    does not exist. *)
Lemma updateLabel_scoped_demo :
  updateLabel "L1" "U1" (LabelPatch.mk (Some "U7") None None None) demoWorld
  = (Threw "violates foreign key constraint", demoWorld)
  /\ exists returned w',
       updateLabel "L1" "U1" (LabelPatch.mk None (Some "Job") None None)
                   demoWorld
       = (Resolved returned, w')
       /\ map Label.id (labelsTable (db w')) = ["L1"]
       /\ option_map Label.name returned = Some "Job"
       /\ emailLabels (db w') = emailLabels (db demoWorld).
Proof.
  destruct (updateLabel_scoped "L1" "U1"
              (LabelPatch.mk (Some "U7") None None None) demoWorld)
    as (_ & Hkey & _).
  destruct (updateLabel_scoped "L1" "U1"
              (LabelPatch.mk None (Some "Job") None None) demoWorld)
    as (_ & _ & Hrun).
  split.
  - apply (Hkey "U7"); [reflexivity | discriminate | | reflexivity].
    intros x [<- | [<- | []]]; discriminate.
  - destruct Hrun as (returned & w' & Hrun & Hids & _ & Hframe & _);
      [discriminate | intros u Hu; discriminate |].
    exists returned, w'. split; [exact Hrun|]. split; [exact Hids|].
    split.
    + injection Hrun as <- _. reflexivity.
    + rewrite Hframe. reflexivity.
Defined.

End Runtime.

(** * Examples with the ASCII fold as the runtime's lower-casing

    The scenario is ASCII text, on which [String.prototype.toLowerCase] is
    the ASCII fold. *)

Lemma asciiFold_AgreesOnAscii : AgreesOnAscii asciiFold.
Proof. intros s _. reflexivity. Qed.



Lemma classifyEmail_swallows_failures_demo :
  (exists w',
      classifyEmail asciiFold "Team Lunch Tomorrow at 12pm" "Hey everyone!"
                    [demoL1] downWorld
      = (Resolved [], w')
      /\ db w' = db downWorld)
  /\ exists w',
       classifyRoute asciiFold "U1" "E2" downWorld
       = (Resolved (mkResponse 200 (JsonClassified "Email classified" [])), w')
       /\ db w' = db downWorld.
Proof.
  destruct (classifyEmail_swallows_failures asciiFold
              "Team Lunch Tomorrow at 12pm" "Hey everyone!" [demoL1] downWorld)
    as [H1 H2].
  - left. reflexivity.
  - split; [exact H1|].
    apply (H2 "U1" "E2" demoE2WithLabels);
      [reflexivity | reflexivity | discriminate | reflexivity | reflexivity].
Defined.

Lemma classify_without_labels_demo :
  classifyRoute asciiFold "U1" "E1" unlabelledWorld
  = (Resolved (mkResponse 400
                 (JsonMessage "No labels available for classification")),
     unlabelledWorld).
Proof.
  destruct (classify_without_labels asciiFold unlabelledWorld) as [_ H].
  apply (H "U1" "E1" (mkEmailWithLabels demoE1 []));
    [reflexivity | intros l []].
Defined.

Lemma classifyRoute_attaches_demo :
  exists ids w1 w' added,
    classifyEmail asciiFold (Email.subject demoE2) (Email.bodyPreview demoE2)
                  [demoL1] demoWorld
    = (Resolved ids, w1)
    /\ classifyRoute asciiFold "U1" "E2" demoWorld
       = (Resolved (mkResponse 200 (JsonClassified "Email classified" ids)), w')
    /\ (forall id, In id ids -> ownsLabel (db demoWorld) "U1" id = true)
    /\ db w' = withEmailLabels (db demoWorld)
                 (emailLabels (db demoWorld) ++ added)%list
    /\ map rowData added = map (fun id => ("E2", id, true)) ids.
Proof.
  apply (classifyRoute_attaches asciiFold "U1" "E2" demoWorld demoE2WithLabels
           [demoL1]);
    [reflexivity | reflexivity | discriminate].
Defined.

(** The query "LUNCH" finds the email whose subject says "Lunch", as the
    query "lunch" does. *)
Lemma inboxFilteredEmails_search_demo :
  inboxFilteredEmails asciiFold (Some [demoE1WithLabels; demoE2WithLabels])
                      "LUNCH"
  = Some [demoE2WithLabels]
  /\ inboxFilteredEmails asciiFold (Some [demoE1WithLabels; demoE2WithLabels])
                         EmptyString
     = Some [demoE1WithLabels; demoE2WithLabels].
Proof.
  destruct (inboxFilteredEmails_search asciiFold
              [demoE1WithLabels; demoE2WithLabels] "lunch") as (_ & _ & H).
  destruct (H asciiFold_AgreesOnAscii) as [Hempty Hcase].
  split; [|exact Hempty].
  rewrite (Hcase "LUNCH"); reflexivity.
Defined.
